(** * HashBrown CMS: schema resolution and media deployment

    A shallow embedding of two server-side entities of HashBrown:

    - [SchemaBase] (static [get]: tiered schema lookup followed by the
      parent-field walk), and
    - [Media] (static [getDeployer], [create], [get], [list],
      [generateThumbnail] and the instance method [remove]).

    Asynchronous functions are embedded as sequential programs: every
    [await] is a bind of the monad of the module.  A call either returns,
    throws a JavaScript error, or (for the recursive schema walk, which is
    run with a fuel counter) has not finished when the fuel is used up. *)

From Stdlib Require Import Ascii.
From stdpp Require Import gmap strings list fin_maps pretty sorting.

(** ** JavaScript values shared by both entities *)

(** Errors a call can be rejected with. *)
Inductive JsError : Type :=
  | ReferenceError (ident : string)   (* a free identifier that is not bound *)
  | TypeError (msg : string)          (* e.g. a property read on [null] *)
  | SyntaxError (msg : string)        (* [JSON.parse] on malformed text *)
  | ParamError (param : string)       (* thrown by the global [checkParam] *)
  | ProcessError (cmd : string)       (* an external process that failed *)
  | Error (msg : string).             (* [new Error(msg)] *)

(** Outcome of running an async function. *)
Inductive outcome (A : Type) : Type :=
  | Return (a : A)
  | Throw (e : JsError)
  | Hang.                             (* fuel exhausted: still running *)
Arguments Return {A} a.
Arguments Throw {A} e.
Arguments Hang {A}.

(** Paths are kept as their list of segments; [Path.join] concatenates
    segment lists, [Path.basename] is the last segment and [Path.dirname]
    drops it. *)
Abbreviation Path := (list string).

Definition basename (p : Path) : string := List.last p "".
Definition dirname (p : Path) : Path := removelast p.

(** JavaScript truthiness of a string-or-undefined property. *)
Definition truthy (s : option string) : option string :=
  match s with
  | Some "" => None
  | other => other
  end.

(** [a || b] on values that are an object or [undefined]. *)
Definition js_or {A} (a b : option A) : option A :=
  match a with
  | Some _ => a
  | None => b
  end.

(** Lowering of the ASCII capitals: what [String.prototype.toLowerCase]
    does to a string of ASCII characters.  The runtime's own function,
    which follows the Unicode case mappings, is a parameter of the
    embedding wherever the code calls it. *)
Definition lower_ascii (c : ascii) : ascii :=
  let n := nat_of_ascii c in
  if (65 <=? n)%nat && (n <=? 90)%nat then ascii_of_nat (n + 32) else c.

Fixpoint toLowerCase (s : string) : string :=
  match s with
  | EmptyString => EmptyString
  | String c r => String (lower_ascii c) (toLowerCase r)
  end.

(** * Part 1: Server/Entity/Resource/SchemaBase *)

Module SchemaBase.

(** The definition of one field of a schema (its JSON kept opaque). *)
Definition FieldDef : Type := string.

(** The plain data object of a schema, as parsed from a schema file or
    stored in the database. *)
Record Schema : Type := mkSchema {
  id : string;
  name : string;
  icon : string;
  parentSchemaId : option string;
  type : option string;
  isLocked : bool;
  fields : gmap string FieldDef
}.

(** [get] ends by instantiating one of three entity classes; an instance
    keeps the data it was made from. *)
Inductive Entity : Type :=
  | FieldSchema (data : Schema)
  | ContentSchema (data : Schema)
  | SchemaBaseEntity (data : Schema).

Definition data_of (e : Entity) : Schema :=
  match e with
  | FieldSchema d | ContentSchema d | SchemaBaseEntity d => d
  end.

(** The [options] argument of [get]; a missing flag is [false]. *)
Record Options : Type := mkOptions {
  customOnly : bool;
  nativeOnly : bool;
  localOnly : bool;
  withParentFields : bool
}.

(** [options = {}] *)
Definition no_options : Options := mkOptions false false false false.

(** [get] mentions two identifiers it does not declare: [Options] (the type
    handed to [checkParam] for the [options] argument) and [query] (the
    object whose [withParentFields] gates the parent walk).  Both are
    resolved in the global scope at run time, so they are parameters of the
    embedding: [None] is an unbound identifier, whose evaluation throws a
    [ReferenceError]. *)
Record Globals : Type := mkGlobals {
  global_Options : option (Options -> bool);
  global_query : option Options
}.

(** The external services [get] reads from.  [FileService_read] composed
    with [JSON.parse] gives the parsed document, or [None] when the text is
    not valid JSON.  [String_toLowerCase] is the runtime's
    [String.prototype.toLowerCase]. *)
Record Services : Type := mkServices {
  APP_ROOT : Path;
  FileService_list : Path -> list Path;
  FileService_read : Path -> option Schema;
  DatabaseService_findOne : string -> string -> string -> option Schema;
  SyncService_getResourceItem :
    string -> string -> string -> string -> option Schema;
  String_toLowerCase : string -> string
}.

(** Service calls, in the order they are awaited. *)
Inductive Call : Type :=
  | FileList (glob : Path)
  | FileRead (path : Path)
  | DbFindOne (project collection id : string)
  | SyncGet (project environment resource id : string).

(** Programs return an outcome together with the service calls made. *)
Definition M (A : Type) : Type := outcome A * list Call.

Definition ret {A} (a : A) : M A := (Return a, []).
Definition throw {A} (e : JsError) : M A := (Throw e, []).
Definition hang {A} : M A := (Hang, []).
Definition call (c : Call) : M unit := (Return tt, [c]).

Definition bind {A B} (m : M A) (k : A -> M B) : M B :=
  match m with
  | (Return a, t) => let '(r, t') := k a in (r, t ++ t')
  | (Throw e, t) => (Throw e, t)
  | (Hang, t) => (Hang, t)
  end.

Notation "x <- m ;; k" := (bind m (fun x => k))
  (at level 100, m at next level, right associativity).
Notation "m ;;; k" := (bind m (fun _ => k))
  (at level 100, right associativity).

Section Get.

Variable globals : Globals.
Variable services : Services.

(** Modelled from the spec: [merge(childSchema, parentSchema)] of
    Common/Entity/Resource/SchemaBase, which is not among the sources.  It
    is the shallow key-wise merge of the field maps: a key of the parent
    that the child lacks is added, a key of both keeps the child's
    definition; everything else is the child's. *)
Definition merge (childSchema parentSchema : Schema) : Schema :=
  mkSchema (id childSchema) (name childSchema) (icon childSchema)
           (parentSchemaId childSchema) (type childSchema)
           (isLocked childSchema)
           (fields childSchema ∪ fields parentSchema).

(** [checkParam(options, 'options', Options, true)] *)
Definition checkParam_options (options : Options) : M unit :=
  match global_Options globals with
  | None => throw (ReferenceError "Options")
  | Some accepts =>
      if accepts options then ret tt else throw (ParamError "options")
  end.

(** [Path.dirname(schemaPath).split('/').pop()] *)
Definition parentDirName (schemaPath : Path) : string :=
  List.last (dirname schemaPath) ".".

(** Lines 57-91 of [get]: the tiered lookup of the data object. *)
Definition resolve (project environment id : string) (options : Options)
  : M (option Schema) :=
  data <-
    (if negb (customOnly options) then
       let corePath := APP_ROOT services ++ ["schema"; "*"; id +:+ ".json"] in
       call (FileList corePath);;;
       let corePaths := FileService_list services corePath in
       let pluginPath :=
         APP_ROOT services ++ ["plugins"; "*"; "schema"; "*"; id +:+ ".json"] in
       call (FileList pluginPath);;;
       let pluginPaths := FileService_list services pluginPath in
       match js_or (head corePaths) (head pluginPaths) with
       | Some schemaPath =>
           call (FileRead schemaPath);;;
           match FileService_read services schemaPath with
           | None => throw (SyntaxError "JSON.parse")
           | Some data =>
               ret (Some (mkSchema id (name data) (icon data)
                            (parentSchemaId data)
                            (Some (String_toLowerCase services
                                     (parentDirName schemaPath)))
                            true (fields data)))
           end
       | None => ret None
       end
     else ret None);;
  data <-
    (match data with
     | None =>
         if negb (nativeOnly options) then
           call (DbFindOne project (environment +:+ ".schemas") id);;;
           ret (DatabaseService_findOne services project
                  (environment +:+ ".schemas") id)
         else ret data
     | Some _ => ret data
     end);;
  match data with
  | None =>
      if negb (localOnly options) && negb (nativeOnly options) then
        call (SyncGet project environment "schemas" id);;;
        ret (SyncService_getResourceItem services project environment
               "schemas" id)
      else ret data
  | Some _ => ret data
  end.

(** Lines 109-118: the entity class is chosen by the type tag. *)
Definition instantiate (data : Schema) : Entity :=
  match type data with
  | Some "field" => FieldSchema data
  | Some "content" => ContentSchema data
  | _ => SchemaBaseEntity data
  end.

(** Lines 98-104: the [while] loop over the parent chain.  [get_parent] is
    the recursive call [this.get(project, environment, id)]; [n] bounds the
    number of iterations. *)
Fixpoint walk (get_parent : string -> M Entity) (n : nat)
    (mergedSchema childSchema : Schema) : M Schema :=
  match truthy (parentSchemaId childSchema) with
  | None => ret mergedSchema
  | Some parentId =>
      match n with
      | O => hang
      | S n' =>
          parentSchema <- get_parent parentId;;
          walk get_parent n' (merge mergedSchema (data_of parentSchema))
               (data_of parentSchema)
      end
  end.

(** [static async get(project, environment, id, options = {})].  Each
    recursive call and each loop iteration uses one unit of fuel. *)
Fixpoint get (fuel : nat) (project environment id : string)
    (options : Options) : M Entity :=
  match fuel with
  | O => hang
  | S fuel' =>
      checkParam_options options;;;
      data <- resolve project environment id options;;
      data <-
        (match data with
         | None => ret None
         | Some d =>
             match global_query globals with
             | None => throw (ReferenceError "query")
             | Some query =>
                 match withParentFields query, truthy (parentSchemaId d) with
                 | true, Some _ =>
                     mergedSchema <-
                       walk (fun parentId =>
                               get fuel' project environment parentId
                                 no_options)
                            fuel' d d;;
                     ret (Some mergedSchema)
                 | _, _ => ret (Some d)
                 end
             end
         end);;
      match data with
      | None => throw (TypeError "Cannot read property 'type' of null")
      | Some d => ret (instantiate d)
      end
  end.

End Get.

End SchemaBase.

(** * Part 1b: the rest of Server/Entity/Resource/SchemaBase *)

Module SchemaBaseMore.

Import SchemaBase.

(** The three classes the static methods can be called on ([this]). *)
Inductive SchemaClass : Type :=
  | FieldSchemaClass
  | ContentSchemaClass
  | SchemaBaseClass.

(** [new this(data)] *)
Definition construct (this : SchemaClass) (data : Schema) : Entity :=
  match this with
  | FieldSchemaClass => FieldSchema data
  | ContentSchemaClass => ContentSchema data
  | SchemaBaseClass => SchemaBaseEntity data
  end.

Definition class_of (entity : Entity) : SchemaClass :=
  match entity with
  | FieldSchema _ => FieldSchemaClass
  | ContentSchema _ => ContentSchemaClass
  | SchemaBaseEntity _ => SchemaBaseClass
  end.

Definition SchemaClass_eqb (a b : SchemaClass) : bool :=
  match a, b with
  | FieldSchemaClass, FieldSchemaClass
  | ContentSchemaClass, ContentSchemaClass
  | SchemaBaseClass, SchemaBaseClass => true
  | _, _ => false
  end.

(** ** [create] *)

(** What the variable [parent] of [create] can hold: the promise an async
    function returns when it is called without [await], with the outcome
    it settles to; an entity; or null. *)
Inductive Value : Type :=
  | Promise (settles : outcome Entity)
  | Instance (entity : Entity)
  | Null.

(** [!value]: objects are truthy, promises included. *)
Definition falsy (value : Value) : bool :=
  match value with
  | Null => true
  | _ => false
  end.

(** [value.constructor] *)
Inductive Constructor : Type :=
  | PromiseConstructor
  | ClassConstructor (class : SchemaClass).

Definition constructor (value : Value) : M Constructor :=
  match value with
  | Promise _ => ret PromiseConstructor
  | Instance entity => ret (ClassConstructor (class_of entity))
  | Null => throw (TypeError "Cannot read property 'constructor' of null")
  end.

(** [value.constructor !== this] *)
Definition differs (c : Constructor) (this : SchemaClass) : bool :=
  match c with
  | PromiseConstructor => true
  | ClassConstructor class => negb (SchemaClass_eqb class this)
  end.

(** An async call that is not awaited: its service calls are made, the
    caller goes on with the promise. *)
Definition unawaited (m : M Entity) : M Value :=
  (Return (Promise (fst m)), snd m).

(** The [data] argument of [create], of which [create] reads
    [data.parentId]. *)
Record CreateData : Type := mkCreateData {
  data_id : string;
  data_parentId : option string
}.

(** The acting user, of which nothing is read. *)
Definition User : Type := string.

(** [checkParam(value, name, Type, true)] on a value that may be
    [undefined]. *)
Definition checkParam {A} (value : option A) (name : string) : M A :=
  match value with
  | Some v => ret v
  | None => throw (ParamError name)
  end.

Section Create.

Variable globals : Globals.
Variable services : Services.

(** [super.create(user, project, environment, data, options)] of the
    persistence layer, which is not among the sources: a parameter. *)
Variable ResourceBase_create :
  SchemaClass -> User -> string -> string -> CreateData -> M Entity.

(** [static async create(user, project, environment, data = {},
    options = {})].  [fuel] bounds the run of the call to [get]. *)
Definition create (this : SchemaClass) (fuel : nat) (user : option User)
    (project environment : string) (data : CreateData) : M Entity :=
  user <- checkParam user "user";;
  parentId <- checkParam (data_parentId data) "data.parentId";;
  parent <-
    unawaited (get globals services fuel project environment parentId
                 (mkOptions false false false true));;
  if falsy parent then
    throw (Error ("Parent schema " +:+ parentId +:+ " could not be found"))
  else
    c <- constructor parent;;
    if differs c this then
      throw (Error ("Parent schema " +:+ parentId +:+
                    " does not match schema type"))
    else ResourceBase_create this user project environment data.

End Create.

(** ** [list] *)

(** The [options] argument of [list]; a missing flag is [false], and
    [options.project] may be missing. *)
Record ListOptions : Type := mkListOptions {
  list_customOnly : bool;
  list_nativeOnly : bool;
  list_localOnly : bool;
  list_project : option string
}.

(** The services [list] reads from besides the file service. *)
Record ListServices : Type := mkListServices {
  (* DatabaseService.find(project, collection, {}, {}) *)
  DatabaseService_find :
    option string -> string -> outcome (Datatypes.list Schema);
  (* SyncService.mergeResource(project, environment, 'schemas', list) *)
  SyncService_mergeResource :
    string -> string -> string -> Datatypes.list Schema ->
    outcome (Datatypes.list Schema)
}.

(** [list] is embedded without the log of service calls: awaiting a call
    that was rejected rejects the caller. *)
Definition await {A B} (m : outcome A) (k : A -> outcome B) : outcome B :=
  match m with
  | Return a => k a
  | Throw e => Throw e
  | Hang => Hang
  end.

Notation "x <~ m ;; k" := (await m (fun x => k))
  (at level 100, m at next level, right associativity).

(** [Path.basename(path, ext)]: the last segment without the extension;
    a segment that is the extension itself is kept, unless it is the whole
    path. *)
Fixpoint strip_suffix (ext s : string) : option string :=
  if String.eqb s ext then Some EmptyString
  else
    match s with
    | EmptyString => None
    | String c r => String c <$> strip_suffix ext r
    end.

Definition basename_ext (path : Path) (ext : string) : string :=
  let base := basename path in
  match path, strip_suffix ext base with
  | [_], Some EmptyString => EmptyString     (* the whole path is [ext] *)
  | _, Some EmptyString => base
  | _, Some stem => stem
  | _, None => base
  end.

(** The type tag [list] filters by. *)
Definition type_of_class (this : SchemaClass) : option string :=
  match this with
  | ContentSchemaClass => Some "content"
  | FieldSchemaClass => Some "field"
  | SchemaBaseClass => None
  end.

Definition same_type (a b : option string) : bool :=
  match a, b with
  | Some a, Some b => String.eqb a b
  | None, None => true
  | _, _ => false
  end.

(** One step of the last loop of [list]: [delete list[i]] leaves a hole in
    the array, [new this(list[i])] an instance. *)
Definition select (this : SchemaClass) (data : Schema) : option Entity :=
  if same_type (type data) (type_of_class this) then
    Some (construct this data)
  else None.

Section List.

Variable services : Services.
Variable listServices : ListServices.

(** The loop over the schema files. *)
Fixpoint readFiles (paths : Datatypes.list Path)
    (list : Datatypes.list Schema) : outcome (Datatypes.list Schema) :=
  match paths with
  | [] => Return list
  | schemaPath :: paths =>
      match FileService_read services schemaPath with
      | None => Throw (SyntaxError "JSON.parse")
      | Some data =>
          readFiles paths
            (list ++
             [mkSchema (basename_ext schemaPath ".json") (name data)
                (icon data) (parentSchemaId data)
                (Some (String_toLowerCase services
                         (parentDirName schemaPath))) true
                (fields data)])
      end
  end.

(** [static async list(project, environment, options = {})].  The result
    is an array with holes: [None] is an index that was deleted. *)
Definition list (this : SchemaClass) (project environment : string)
    (options : ListOptions) : outcome (Datatypes.list (option Entity)) :=
  list <~
    (if negb (list_customOnly options) then
       let corePaths :=
         FileService_list services
           (APP_ROOT services ++ ["schema"; "*"; "*.json"]) in
       let pluginPaths :=
         FileService_list services
           (APP_ROOT services ++
            ["plugins"; "*"; "schema"; "*"; "*.json"]) in
       readFiles (corePaths ++ pluginPaths) []
     else Return []);;
  list <~
    (if negb (list_nativeOnly options) then
       custom <~
         DatabaseService_find listServices (list_project options)
           (environment +:+ ".schemas");;
       Return (list ++ custom)
     else Return list);;
  list <~
    (if negb (list_localOnly options) then
       SyncService_mergeResource listServices project environment "schemas"
         list
     else Return list);;
  Return (select this <$> list).

End List.

End SchemaBaseMore.


(** * Part 2: Server/Entity/Resource/Media *)

Module Media.

(** Raw bytes ([Buffer]). *)
Definition Buffer : Type := string.

(** The [mediaDeployer] settings of an environment: the alias naming the
    deployer implementation, and of its connection parameters the root
    under which it stores media. *)
Record Settings : Type := mkSettings {
  alias : option string;
  rootPath : Path
}.

Record Project : Type := mkProject {
  project_id : string;
  getEnvironmentSettings : string -> string -> option Settings
}.

Record Context : Type := mkContext {
  project : Project;
  environment : string
}.

(** A media resource: identifier, file name, context, and the persisted
    metadata (kept as an opaque key-value map). *)
Record Media : Type := mkMedia {
  id : string;
  filename : option string;
  context : option Context;
  metadata : gmap string string
}.

(** The [data] and [options] arguments of [create].  [data.filename] and
    [options.full] are validated by [checkParam] on entry and are typed
    accordingly; [options.filename] is used unvalidated. *)
Record Data : Type := mkData {
  data_filename : string;
  data_metadata : gmap string string
}.

Record CreateOptions : Type := mkCreateOptions {
  options_filename : option string;
  options_full : string
}.

(** The deployer instance made by [DeployerBase.new(settings)], for
    whatever alias the settings name. *)
Record Deployer : Type := mkDeployer {
  deployer_settings : Settings;
  deployer_context : Context
}.

(** Calls made on a deployer. *)
Inductive DeployerCall : Type :=
  | GetFolder (path : Path) (depth : nat)
  | SetFile (path : Path) (content : string)
  | RemoveFile (path : Path)
  | RemoveFolder (path : Path).

(** The state the entity works on, for one project environment: the
    persisted media records, the files held by the deployer (path to
    base64 content), the server's local storage used for temporary files,
    and the log of deployer calls. *)
Record World : Type := mkWorld {
  database : list Media;
  deployed : gmap Path string;
  directories : gset Path;
  files : gmap Path Buffer;
  deployer_calls : list DeployerCall
}.

(** A display name: a JavaScript string, kept as the sequence of its
    UTF-16 code units, which is what [===] and [<] compare. *)
Definition Name : Type := list N.

(** Globals and library functions the entity calls that are not among the
    sources. *)
Record Platform : Type := mkPlatform {
  APP_ROOT : Path;
  getMIMEType : string -> string;
  (* the [convert] program: command line and source bytes to the bytes it
     writes, [None] when the process fails or is not installed *)
  convert : string -> Buffer -> option Buffer;
  base64_decode : string -> Buffer;            (* Buffer.from(s, 'base64') *)
  base64_encode : Buffer -> string;            (* buffer.toString('base64') *)
  createId : list Media -> string;             (* id given to a new record *)
  getName : Media -> Name                      (* the display name *)
}.

(** State and error monad. *)
Definition M (A : Type) : Type := World -> outcome A * World.

Definition ret {A} (a : A) : M A := fun w => (Return a, w).
Definition throw {A} (e : JsError) : M A := fun w => (Throw e, w).

Definition bind {A B} (m : M A) (k : A -> M B) : M B := fun w =>
  match m w with
  | (Return a, w') => k a w'
  | (Throw e, w') => (Throw e, w')
  | (Hang, w') => (Hang, w')
  end.

Notation "x <- m ;; k" := (bind m (fun x => k))
  (at level 100, m at next level, right associativity).
Notation "m ;;; k" := (bind m (fun _ => k))
  (at level 100, right associativity).

(** [checkParam(value, name, Type, true)] on a value that may be
    [undefined]. *)
Definition checkParam {A} (value : option A) (name : string) : M A :=
  match value with
  | Some v => ret v
  | None => throw (ParamError name)
  end.

(** [type.indexOf(needle) > -1] *)
Definition contains (needle type : string) : bool :=
  match String.index 0 needle type with
  | Some _ => true
  | None => false
  end.

(** [Path.extname]: within the last component of the path (separators at
    the end of the path are left out), from the last dot, unless that dot
    is the first character or there is none; [..] has no extension. *)
Fixpoint from_last (sep : ascii) (s : string) : option string :=
  match s with
  | EmptyString => None
  | String c r =>
      match from_last sep r with
      | Some tail => Some tail
      | None => if Ascii.eqb c sep then Some s else None
      end
  end.

Fixpoint strip_trailing (sep : ascii) (s : string) : string :=
  match s with
  | EmptyString => EmptyString
  | String c r =>
      match strip_trailing sep r with
      | EmptyString =>
          if Ascii.eqb c sep then EmptyString else String c EmptyString
      | rest => String c rest
      end
  end.

Definition last_component (path : string) : string :=
  let path := strip_trailing "/" path in
  match from_last "/" path with
  | Some (String _ r) => r
  | _ => path
  end.

Definition extname (path : string) : string :=
  match last_component path with
  | EmptyString => ""
  | ".." => ""
  | String _ r => default "" (from_last "." r)
  end.

Definition path_string (p : Path) : string := String.concat "/" p.

(** Comparison of two strings, code unit by code unit; a proper prefix is
    smaller.  [a === b] and [a < b] are its two outcomes [Eq] and [Lt]. *)
Fixpoint compare_units (a b : Name) : comparison :=
  match a, b with
  | [], [] => Eq
  | [], _ :: _ => Lt
  | _ :: _, [] => Gt
  | x :: a, y :: b =>
      match N.compare x y with
      | Eq => compare_units a b
      | c => c
      end
  end.

Definition String_eq (a b : Name) : bool :=
  match compare_units a b with
  | Eq => true
  | _ => false
  end.

Definition String_lt (a b : Name) : bool :=
  match compare_units a b with
  | Lt => true
  | _ => false
  end.

Section Entity.

Variable platform : Platform.

(** ** Modelled from the spec: the collaborators of the entity *)

(** Modelled from the spec: the generic resource persistence layer
    (Common/Entity/Resource/ResourceBase and the database service are not
    among the sources).  [create] persists a record under a new id and
    returns it, [get] finds the record of an id or null, [list] returns all
    records, [remove] deletes the persisted record. *)
Definition ResourceBase_create (context : Context) (data : Data)
    (options : CreateOptions) : M Media := fun w =>
  let resource :=
    mkMedia (createId platform (database w)) (Some (data_filename data))
            (Some context) (data_metadata data) in
  (Return resource,
   mkWorld (database w ++ [resource]) (deployed w) (directories w) (files w)
           (deployer_calls w)).

Definition ResourceBase_get (context : Context) (id' : string)
  : M (option Media) := fun w =>
  (Return (List.find (fun r => String.eqb (id r) id') (database w)), w).

Definition ResourceBase_list (context : Context) : M (list Media) := fun w =>
  (Return (database w), w).

Definition ResourceBase_remove (this : Media) : M unit := fun w =>
  (Return tt,
   mkWorld (List.filter (fun r => negb (String.eqb (id r) (id this)))
                        (database w))
           (deployed w) (directories w) (files w) (deployer_calls w)).

(** Modelled from the spec: the MediaDeployer capability contract (the
    deployer classes are not among the sources), as a store of files by
    path.  [getPath(...segments)] is the root followed by the segments
    that are defined. *)
Definition getPath (deployer : Deployer) (segments : list (option string))
  : Path :=
  rootPath (deployer_settings deployer) ++ omap (fun s => s) segments.

Definition below (folder : Path) (depth : nat) (p : Path) : Prop :=
  folder `prefix_of` p /\ length folder < length p <= length folder + depth.

Definition log (c : DeployerCall) (w : World) : World :=
  mkWorld (database w) (deployed w) (directories w) (files w)
          (deployer_calls w ++ [c]).

Definition with_deployed (d : gmap Path string) (w : World) : World :=
  mkWorld (database w) d (directories w) (files w) (deployer_calls w).

(** [getFolder(path, depth = 1)]: the deployed files at most [depth]
    levels below [path]. *)
Definition getFolder (deployer : Deployer) (path : Path) (depth : nat)
  : M (list Path) := fun w =>
  (Return (map fst (map_to_list
             (filter (fun kv => below path depth (fst kv)) (deployed w)))),
   log (GetFolder path depth) w).

Definition setFile (deployer : Deployer) (path : Path) (content : string)
  : M unit := fun w =>
  (Return tt,
   log (SetFile path content)
       (with_deployed (<[path := content]> (deployed w)) w)).

Definition removeFile (deployer : Deployer) (path : Path) : M unit := fun w =>
  (Return tt,
   log (RemoveFile path) (with_deployed (delete path (deployed w)) w)).

Definition removeFolder (deployer : Deployer) (path : Path) : M unit := fun w =>
  (Return tt,
   log (RemoveFolder path)
       (with_deployed
          (filter (fun kv => ~ path `prefix_of` fst kv) (deployed w)) w)).

(** Modelled from the spec: the file service on the server's local storage
    and the process service (not among the sources). *)
Definition with_storage (ds : gset Path) (fs : gmap Path Buffer) (w : World)
  : World :=
  mkWorld (database w) (deployed w) ds fs (deployer_calls w).

Definition FileService_makeDirectory (folder : Path) : M unit := fun w =>
  (Return tt, with_storage ({[folder]} ∪ directories w) (files w) w).

Definition FileService_write (data : Buffer) (file : Path) : M unit := fun w =>
  (Return tt, with_storage (directories w) (<[file := data]> (files w)) w).

Definition FileService_read (file : Path) : M Buffer := fun w =>
  match files w !! file with
  | Some data => (Return data, w)
  | None => (Throw (Error "ENOENT"), w)
  end.

Definition FileService_remove (folder : Path) : M unit := fun w =>
  (Return tt,
   with_storage
     (filter (fun d => ~ folder `prefix_of` d) (directories w))
     (filter (fun kv => ~ folder `prefix_of` fst kv) (files w)) w).

(** [AppService.exec(cmd)] for the [convert] command lines built by
    [generateThumbnail]: the process rewrites [file] in place, or fails. *)
Definition AppService_exec (cmd : string) (file : Path) : M unit := fun w =>
  match files w !! file with
  | None => (Throw (ProcessError cmd), w)
  | Some source =>
      match convert platform cmd source with
      | None => (Throw (ProcessError cmd), w)
      | Some scaled =>
          (Return tt,
           with_storage (directories w) (<[file := scaled]> (files w)) w)
      end
  end.

(** ** The entity (src/Server/Entity/Resource/Media.js) *)

(** [static async getDeployer(context)] *)
Definition getDeployer (context : Context) : M (option Deployer) :=
  match getEnvironmentSettings (project context) (environment context)
          "mediaDeployer" with
  | None => ret None
  | Some deployer =>
      match truthy (alias deployer) with
      | None => ret None
      | Some _ => ret (Some (mkDeployer deployer context))
      end
  end.

(** [static async generateThumbnail(context, filename, data, width = 200,
    height = 200)] *)
Definition generateThumbnail (context : Context) (filename : option string)
    (data : Buffer) (width height : nat) : M (option Buffer) :=
  filename <- checkParam filename "filename";;
  let type := getMIMEType platform filename in
  if negb (contains "image" type) || contains "svg" type then ret None
  else
    let tempFolder :=
      APP_ROOT platform ++
      ["storage"; project_id (project context); environment context; "media"] in
    let tempFile := tempFolder ++ ["thumbnail" +:+ extname filename] in
    FileService_makeDirectory tempFolder;;;
    FileService_write data tempFile;;;
    AppService_exec
      ("convert " +:+ path_string tempFile +:+ " -auto-orient -resize " +:+
       pretty width +:+
       (match height with O => "" | _ => "x" +:+ pretty height end) +:+
       "\> " +:+ path_string tempFile)
      tempFile;;;
    data <- FileService_read tempFile;;
    FileService_remove tempFolder;;;
    ret (Some data).

(** [static async create(context, data = {}, options = {})] *)
Definition create (context : Context) (data : Data) (options : CreateOptions)
  : M Media :=
  deployer <- getDeployer context;;
  match deployer with
  | None => throw (Error "No media deployer configured")
  | Some deployer =>
      resource <- ResourceBase_create context data options;;
      removeFolder deployer (getPath deployer [Some (id resource)]);;;
      setFile deployer
        (getPath deployer [Some (id resource); options_filename options])
        (options_full options);;;
      thumbnail <-
        generateThumbnail context (options_filename options)
          (base64_decode platform (options_full options)) 200 200;;
      match thumbnail with
      | Some thumbnail =>
          setFile deployer
            (getPath deployer [Some (id resource); Some "thumbnail.jpg"])
            (base64_encode platform thumbnail)
      | None => ret tt
      end;;;
      ret resource
  end.

(** The loop of [get] that associates the resource with a file. *)
Fixpoint associate (context : Context) (id' : string) (files : list Path)
    (resource : option Media) : option Media :=
  match files with
  | [] => resource
  | file :: files =>
      let filename := basename file in
      if String.eqb filename "thumbnail.jpg" then
        associate context id' files resource
      else
        associate context id' files
          (match resource with
           | None => Some (mkMedia id' (Some filename) (Some context) ∅)
           | Some _ => resource
           end)
  end.

(** [static async get(context, id, options = {})] *)
Definition get (context : Context) (id' : string) : M (option Media) :=
  deployer <- getDeployer context;;
  files <-
    (match deployer with
     | Some deployer => getFolder deployer (getPath deployer [Some id']) 1
     | None => ret []
     end);;
  resource <- ResourceBase_get context id';;
  ret (associate context id' files resource).

(** A plain object used as a map from id to resource, kept as the list of
    its own properties: keys in insertion order; assigning to a key that
    exists keeps its place.  Besides its own properties the object has
    those it inherits from [Object.prototype]. *)
Abbreviation ResourceMap := (list (string * Media)).

(** The property names of [Object.prototype], as the language defines
    it. *)
Definition inherited (key : string) : bool :=
  existsb (String.eqb key)
    ["constructor"; "__defineGetter__"; "__defineSetter__";
     "hasOwnProperty"; "__lookupGetter__"; "__lookupSetter__";
     "isPrototypeOf"; "propertyIsEnumerable"; "toString"; "valueOf";
     "__proto__"; "toLocaleString"].

(** The own property [k] of the map. *)
Fixpoint lookup_key (m : ResourceMap) (k : string) : option Media :=
  match m with
  | [] => None
  | (k', v) :: m => if String.eqb k' k then Some v else lookup_key m k
  end.

(** [m[k] = v] for a key other than [__proto__]: the own property is
    set, also where an inherited member has the name. *)
Fixpoint assign (m : ResourceMap) (k : string) (v : Media) : ResourceMap :=
  match m with
  | [] => [(k, v)]
  | (k', v') :: m =>
      if String.eqb k' k then (k, v) :: m else (k', v') :: assign m k v
  end.

(** A key that is a canonical array index (a decimal numeral below
    [2^32 - 1]) and its value. *)
Fixpoint digits (s : string) (acc : N) : option N :=
  match s with
  | EmptyString => Some acc
  | String c r =>
      let n := N_of_ascii c in
      if (48 <=? n)%N && (n <=? 57)%N then digits r (acc * 10 + (n - 48))%N
      else None
  end.

Definition array_index (k : string) : option N :=
  match k with
  | EmptyString => None
  | String "0" EmptyString => Some 0%N
  | String "0" _ => None
  | _ =>
      match digits k 0 with
      | Some n => if (n <? 4294967295)%N then Some n else None
      | None => None
      end
  end.

Fixpoint insert_index (n : N) (v : Media) (l : list (N * Media))
  : list (N * Media) :=
  match l with
  | [] => [(n, v)]
  | (n', v') :: l' =>
      if (n <=? n')%N then (n, v) :: l else (n', v') :: insert_index n v l'
  end.

(** [Object.values(m)]: the values of array-index keys in ascending
    numeric order, then those of the other keys in insertion order. *)
Fixpoint index_entries (m : ResourceMap) : list (N * Media) :=
  match m with
  | [] => []
  | (k, v) :: m =>
      match array_index k with
      | Some n => insert_index n v (index_entries m)
      | None => index_entries m
      end
  end.

Fixpoint named_entries (m : ResourceMap) : list Media :=
  match m with
  | [] => []
  | (k, v) :: m =>
      match array_index k with
      | Some _ => named_entries m
      | None => v :: named_entries m
      end
  end.

Definition Object_values (m : ResourceMap) : list Media :=
  map snd (index_entries m) ++ named_entries m.

(** The comparator of [list]: [a === b ? 0 : a < b ? -1 : 1] on the
    display names. *)
Definition compareNames (a b : Media) : comparison :=
  let a := getName platform a in
  let b := getName platform b in
  if String_eq a b then Eq else if String_lt a b then Lt else Gt.

(** [Array.prototype.sort(compare)], a stable sort. *)
Fixpoint sort_insert (compare : Media -> Media -> comparison) (x : Media)
    (l : list Media) : list Media :=
  match l with
  | [] => [x]
  | y :: l' =>
      match compare x y with
      | Gt => y :: sort_insert compare x l'
      | _ => x :: l
      end
  end.

Definition sort (compare : Media -> Media -> comparison) (l : list Media)
  : list Media :=
  foldr (sort_insert compare) [] l.

(** The first loop of [list]: [resourceMap[resource.id] = resource].
    Assigning to [__proto__] adds no property: it makes the resource the
    prototype of the map.  What the map inherits from then on is not
    followed; the properties below are stated for records that are not
    named so. *)
Definition mapResources (resources : list Media) : ResourceMap :=
  foldl (fun m resource =>
           if String.eqb (id resource) "__proto__" then m
           else assign m (id resource) resource)
        [] resources.

(** One iteration of the second loop of [list].  [resourceMap[id]] reads
    the own property, else the inherited member of that name, else
    [undefined].  An inherited member is truthy, so that no resource is
    made, and the context and file name are set on that member: the map
    stays as it is.  (For [__proto__] the member is [Object.prototype]
    itself; what every object inherits from then on is not followed, and
    the properties below are stated for folders that are not named so.) *)
Definition associateFile (context : Context) (m : ResourceMap) (file : Path)
  : ResourceMap :=
  let id' := basename (dirname file) in
  let filename := basename file in
  if String.eqb filename "thumbnail.jpg" then m
  else
    match lookup_key m id' with
    | Some resource =>
        assign m id'
          (mkMedia (id resource) (Some filename) (Some context)
             (metadata resource))
    | None =>
        if inherited id' then m
        else assign m id' (mkMedia id' (Some filename) (Some context) ∅)
    end.

(** The part of [list] after the two sources have been read. *)
Definition reconcile (context : Context) (files : list Path)
    (resources : list Media) : list Media :=
  let resourceMap := mapResources resources in
  let resourceMap := foldl (associateFile context) resourceMap files in
  sort compareNames (Object_values resourceMap).

(** [static async list(context, options = {})] *)
Definition list (context : Context) : M (list Media) :=
  deployer <- getDeployer context;;
  files <-
    (match deployer with
     | Some deployer => getFolder deployer (getPath deployer []) 2
     | None => ret []
     end);;
  resources <- ResourceBase_list context;;
  ret (reconcile context files resources).

(** [async remove(options = {})] *)
Definition remove (this : Media) : M unit :=
  ResourceBase_remove this;;;
  context <- checkParam (context this) "context";;
  deployer <- getDeployer context;;
  match deployer with
  | Some deployer => removeFolder deployer (getPath deployer [Some (id this)])
  | None => ret tt
  end.

End Entity.

End Media.

(** * Part 2b: the rest of Server/Entity/Resource/Media *)

Module MediaMore.

Import Media.

(** [options.thumbnail] of [save]: [false], a payload, or absent. *)
Inductive ThumbnailOption : Type :=
  | ThumbnailFalse
  | ThumbnailData (data : string)
  | ThumbnailUndefined.

(** The [options] argument of [save]; none of its fields is validated. *)
Record SaveOptions : Type := mkSaveOptions {
  save_filename : option string;
  save_full : option string;
  save_thumbnail : ThumbnailOption
}.

(** The loop of [getContentUrl]: the first listed file that is not the
    thumbnail, made a public URL if asked. *)
Fixpoint firstContent (publicUrl : Path -> Path) (ensureWebUrl : bool)
    (files : Datatypes.list Path) : option Path :=
  match files with
  | [] => None
  | file :: files =>
      if String.eqb (basename file) "thumbnail.jpg" then
        firstContent publicUrl ensureWebUrl files
      else Some (if ensureWebUrl then publicUrl file else file)
  end.

Section Entity.

Variable platform : Platform.

(** [deployer.getPublicUrl(path)] of the deployer classes, which are not
    among the sources: a parameter. *)
Variable getPublicUrl : Deployer -> Path -> Path.

(** [super.save(options)] of the persistence layer, which is not among the
    sources: a parameter giving the records after this entity was saved. *)
Variable saveRecord : Media -> Datatypes.list Media -> Datatypes.list Media.

(** What [this.generateThumbnail] resolves to on an instance.  The method
    of this name in the source is static; whether the base classes, which
    are not among the sources, give instances one is a parameter: [None]
    makes the call a [TypeError]. *)
Variable instance_generateThumbnail :
  option (Context -> option string -> Buffer -> M (option Buffer)).

Definition ResourceBase_save (this : Media) : M unit := fun w =>
  (Return tt,
   mkWorld (saveRecord this (database w)) (deployed w) (directories w)
           (files w) (deployer_calls w)).

(** [async getContentUrl(ensureWebUrl = false)] *)
Definition getContentUrl (this : Media) (ensureWebUrl : bool)
  : M (option Path) :=
  context <- checkParam (context this) "context";;
  deployer <- getDeployer context;;
  match deployer with
  | None => ret None
  | Some deployer =>
      files <- getFolder deployer (getPath deployer [Some (id this)]) 1;;
      ret (firstContent (getPublicUrl deployer) ensureWebUrl files)
  end.

(** [async save(options = {})] *)
Definition save (this : Media) (options : SaveOptions) : M unit :=
  context <- checkParam (context this) "context";;
  deployer <- getDeployer context;;
  match deployer with
  | None => throw (Error "No media deployer configured")
  | Some deployer =>
      match truthy (filename this), truthy (save_full options) with
      | Some _, Some full =>
          removeFolder deployer (getPath deployer [Some (id this)]);;;
          setFile deployer
            (getPath deployer [Some (id this); save_filename options]) full
      | _, _ => ret tt
      end;;;
      match save_thumbnail options with
      | ThumbnailFalse =>
          removeFile deployer
            (getPath deployer [Some (id this); Some "thumbnail.jpg"])
      | ThumbnailData (String c s) =>
          setFile deployer
            (getPath deployer [Some (id this); Some "thumbnail.jpg"])
            (String c s)
      | _ =>
          match truthy (save_full options), truthy (save_filename options) with
          | Some full, Some filename =>
              match instance_generateThumbnail with
              | None =>
                  throw (TypeError "this.generateThumbnail is not a function")
              | Some generate =>
                  thumbnail <-
                    generate context (Some filename)
                      (base64_decode platform full);;
                  match thumbnail with
                  | Some thumbnail =>
                      setFile deployer
                        (getPath deployer
                           [Some (id this); Some "thumbnail.jpg"])
                        (base64_encode platform thumbnail)
                  | None => ret tt
                  end
              end
          | _, _ => ret tt
          end
      end;;;
      ResourceBase_save this
  end.

End Entity.

End MediaMore.

(** * Part 2c: SchemaBase.import, the conversion of a uischema.org document *)

Module SchemaImport.

(** A JSON value.  An object is kept as the list of its own properties in
    enumeration order.  Of a number only whether it is zero is looked
    at. *)
#[local] Set Warnings "-register-all".

Inductive Json : Type :=
  | JNull
  | JBool (b : bool)
  | JNumber (n : Z)
  | JString (s : string)
  | JArray (items : list Json)
  | JObject (entries : list (string * Json)).

(** The field definitions [getFields] builds: [def.label],
    [def.description], [def.schemaId] and [def.config]. *)
Inductive Def : Type :=
  | mkDef (label description : Json) (schemaId : option string)
      (config : Config)
with Config : Type :=
  | NoConfig
  | AllowedSchemas (allowedSchemas : list string)
  | Step (step : Json)
  | IsMultiLine (isMultiLine : bool)
  | Struct (struct : list (string * Def)).

#[local] Set Warnings "register-all".

Definition Fields : Type := list (string * Def).

(** JavaScript truthiness. *)
Definition truthy_value (value : Json) : bool :=
  match value with
  | JNull => false
  | JBool b => b
  | JNumber n => negb (n =? 0)%Z
  | JString s => negb (String.eqb s "")
  | JArray _ | JObject _ => true
  end.

Fixpoint lookup_entry (key : string) (entries : list (string * Json))
  : option Json :=
  match entries with
  | [] => None
  | (k, v) :: entries => if String.eqb k key then Some v else lookup_entry key entries
  end.

(** [value[key]] for the own properties of a value: the entries of an
    object, the elements and the length of an array, the characters and
    the length of a string.  Members inherited from the built-in
    prototypes are read as [undefined]: what [getFields] reads in the end
    is a property [@name] or [@description], and no built-in member, nor
    any value reached from one, has such a property. *)
Definition property (value : Json) (key : string) : option Json :=
  match value with
  | JObject entries => lookup_entry key entries
  | JArray items =>
      if String.eqb key "length" then Some (JNumber (Z.of_nat (length items)))
      else n ← Media.array_index key; items !! N.to_nat n
  | JString s =>
      if String.eqb key "length" then Some (JNumber (Z.of_nat (String.length s)))
      else
        n ← Media.array_index key;
        c ← String.get (N.to_nat n) s;
        Some (JString (String c EmptyString))
  | _ => None
  end.

(** [value || fallback] *)
Definition or_else (value : option Json) (fallback : Json) : Json :=
  match value with
  | Some v => if truthy_value v then v else fallback
  | None => fallback
  end.

(** [key[0] === '@'] *)
Definition is_annotation (key : string) : bool :=
  match key with
  | String "@" _ => true
  | _ => false
  end.

(** [fields[key] = def] on a plain object: a new key is added last, an
    existing key keeps its place; the key [__proto__] names the prototype
    and adds no property. *)
Fixpoint assign (fields : Fields) (key : string) (def : Def) : Fields :=
  match fields with
  | [] => [(key, def)]
  | (k, d) :: fields =>
      if String.eqb k key then (key, def) :: fields
      else (k, d) :: assign fields key def
  end.

Definition set_property (fields : Fields) (key : string) (def : Def)
  : Fields :=
  if String.eqb key "__proto__" then fields else assign fields key def.

(** The string primitives of the runtime that [getId] calls.  What the
    first UTF-16 code unit of a string is, and what its lower case is (by
    the Unicode case mappings), is the runtime's to say. *)
Record StringOps : Type := mkStringOps {
  charAt0 : string -> option string;   (* s[0]; undefined on the empty string *)
  substring1 : string -> string;       (* s.substring(1) *)
  lowerCase : string -> string         (* s.toLowerCase() *)
}.

Section Conversion.

Variable strings : StringOps.

(** [getId]: [type[0].toLowerCase() + type.substring(1)].  Only a string
    that is not empty has both a first character and [substring]; on any
    other value one of the two reads fails. *)
Definition getId (type : Json) : outcome string :=
  match type with
  | JNull => Throw (TypeError "Cannot read property '0' of null")
  | JString s =>
      match charAt0 strings s with
      | Some first =>
          Return (lowerCase strings first +:+ substring1 strings s)
      | None =>
          Throw (TypeError "Cannot read property 'toLowerCase' of undefined")
      end
  | _ =>
      match property type "0" with
      | None =>
          Throw (TypeError "Cannot read property 'toLowerCase' of undefined")
      | Some JNull =>
          Throw (TypeError "Cannot read property 'toLowerCase' of null")
      | Some (JString _) =>
          Throw (TypeError "type.substring is not a function")
      | Some _ => Throw (TypeError "type[0].toLowerCase is not a function")
      end
  end.

(** [for(let t of type) allowedSchemas.push(getId(t))] *)
Fixpoint getIds (types : list Json) : outcome (list string) :=
  match types with
  | [] => Return []
  | t :: types =>
      match getId t with
      | Return id =>
          match getIds types with
          | Return ids => Return (id :: ids)
          | failed => failed
          end
      | Throw e => Throw e
      | Hang => Hang
      end
  end.

Definition quote : string := String (ascii_of_nat 34) EmptyString.

(** [value === text] *)
Definition is_string (value : option Json) (text : string) : bool :=
  match value with
  | Some (JString s) => String.eqb s text
  | _ => false
  end.

(** The branch [typeof type === 'string'] of [getFields]: the schema
    identifier and the configuration of a field whose type is the string
    [type]; [jsonType] is [json['@type']]. *)
Definition stringField (jsonType : option Json) (key type : string)
  : outcome (string * Config) :=
  if is_string jsonType "Image" && String.eqb key "src" then
    Return ("mediaReference", NoConfig)
  else if String.eqb type "int" then Return ("number", Step (JNumber 0))
  else if String.eqb type "float" then
    Return ("number", Step (JBool false))
  else if String.eqb type "bool" then Return ("boolean", NoConfig)
  else if String.eqb type "text" then Return ("string", IsMultiLine true)
  else if String.eqb type "html" then Return ("richText", NoConfig)
  else
    match getId (JString type) with
    | Return id => Return (id, NoConfig)
    | Throw e => Throw e
    | Hang => Hang
    end.

(** The body of the loop of [getFields] from [if(!type)] on, for one key:
    [jsonType] is [json['@type']], [info] is [i18n[key] || {}], [type] the
    type the key resolved to and [struct] what [getFields(type, info)]
    gives, which is used when [type] is an object. *)
Definition fieldDef (jsonType : option Json) (key : string) (info : Json)
    (type : Json) (struct : outcome Fields) : outcome Def :=
  if negb (truthy_value type) then
    Throw (Error ("Type for key " +:+ quote +:+ key +:+ quote +:+ " was null"))
  else
    let label := or_else (property info "@name") (JString "(no name)") in
    let description :=
      or_else (property info "@description") (JString "(no description)") in
    match type with
    | JArray types =>
        match getIds types with
        | Return allowedSchemas =>
            Return (mkDef label description (Some "array")
                      (AllowedSchemas allowedSchemas))
        | Throw e => Throw e
        | Hang => Hang
        end
    | JString s =>
        match stringField jsonType key s with
        | Return (schemaId, config) =>
            Return (mkDef label description (Some schemaId) config)
        | Throw e => Throw e
        | Hang => Hang
        end
    | JObject _ =>
        match struct with
        | Return fields =>
            Return (mkDef label description (Some "struct") (Struct fields))
        | Throw e => Throw e
        | Hang => Hang
        end
    | _ => Return (mkDef label description None NoConfig)
    end.

(** [getFields(json, i18n)].  [json] is a plain object: [import] has read
    [json['@i18n'][language]] before it calls [getFields], and the nested
    calls are made on objects that are not arrays.  [i18n] is [JNull] when
    the caller passed [undefined] or [null]. *)
Fixpoint getFields (json i18n : Json) {struct json} : outcome Fields :=
  match json with
  | JObject entries =>
      (fix each (todo : list (string * Json)) (fields : Fields)
           {struct todo} : outcome Fields :=
         match todo with
         | [] => Return fields
         | (key, value) :: todo =>
             if is_annotation key then each todo fields
             else
               match i18n with
               | JNull =>
                   Throw (TypeError
                            ("Cannot read property '" +:+ key +:+ "' of null"))
               | _ =>
                   let info := or_else (property i18n key) (JObject []) in
                   (* if(type && type['@type']) { type = type['@type']; } *)
                   let type :=
                     match value with
                     | JObject typeEntries =>
                         (fix find (es : list (string * Json)) : Json :=
                            match es with
                            | [] => value
                            | (k, v) :: es =>
                                if String.eqb k "@type" then
                                  if truthy_value v then v else value
                                else find es
                            end) typeEntries
                     | _ => value
                     end in
                   match fieldDef (lookup_entry "@type" entries) key info type
                           (getFields type info) with
                   | Return def => each todo (set_property fields key def)
                   | Throw e => Throw e
                   | Hang => Hang
                   end
               end
         end) entries []
  | _ => Return []
  end.

End Conversion.

End SchemaImport.

(** * Part 3: the vocabulary of the properties *)

(** ** Schema resolution *)

Module SchemaBaseSpec.

Import SchemaBase.

(** ** The resolution order, in the words of the specification *)

(** A tier of the lookup: whether the options enable it, the service calls
    made to consult it, and what it finds. *)
Record Tier : Type := mkTier {
  enabled : bool;
  consults : list Call;
  finds : outcome (option Schema)
}.

(** Tiers are consulted in order; the first enabled tier that finds a
    record ends the lookup, and a disabled tier is not consulted. *)
Fixpoint first_hit (tiers : list Tier) : M (option Schema) :=
  match tiers with
  | [] => (Return None, [])
  | tier :: rest =>
      if enabled tier then
        match finds tier with
        | Return None =>
            (fst (first_hit rest), consults tier ++ snd (first_hit rest))
        | found => (found, consults tier)
        end
      else first_hit rest
  end.

Section Tiers.

Variable services : Services.
Variables project environment id : string.

Definition builtin_files : list Path :=
  FileService_list services
    (APP_ROOT services ++ ["schema"; "*"; id +:+ ".json"]).

Definition plugin_files : list Path :=
  FileService_list services
    (APP_ROOT services ++ ["plugins"; "*"; "schema"; "*"; id +:+ ".json"]).

(** The record of a schema file: its document with the identifier, the
    type tag named by its directory, and the locked mark. *)
Definition file_record (path : Path) : outcome (option Schema) :=
  match FileService_read services path with
  | Some doc =>
      Return (Some (mkSchema id (name doc) (icon doc) (parentSchemaId doc)
                      (Some (String_toLowerCase services
                               (parentDirName path))) true
                      (fields doc)))
  | None => Throw (SyntaxError "JSON.parse")
  end.

(** Built-in files, then plugin files; a built-in file wins. *)
Definition file_tier (options : Options) : Tier :=
  let listed :=
    [FileList (APP_ROOT services ++ ["schema"; "*"; id +:+ ".json"]);
     FileList (APP_ROOT services ++
               ["plugins"; "*"; "schema"; "*"; id +:+ ".json"])] in
  mkTier (negb (customOnly options))
    (match builtin_files, plugin_files with
     | path :: _, _ => listed ++ [FileRead path]
     | [], path :: _ => listed ++ [FileRead path]
     | [], [] => listed
     end)
    (match builtin_files, plugin_files with
     | path :: _, _ => file_record path
     | [], path :: _ => file_record path
     | [], [] => Return None
     end).

Definition custom_tier (options : Options) : Tier :=
  mkTier (negb (nativeOnly options))
    [DbFindOne project (environment +:+ ".schemas") id]
    (Return (DatabaseService_findOne services project
               (environment +:+ ".schemas") id)).

Definition sync_tier (options : Options) : Tier :=
  mkTier (negb (localOnly options) && negb (nativeOnly options))
    [SyncGet project environment "schemas" id]
    (Return (SyncService_getResourceItem services project environment
               "schemas" id)).

(** The sources in the order of the specification. *)
Definition tiers (options : Options) : list Tier :=
  [file_tier options; custom_tier options; sync_tier options].

End Tiers.

(** No tier holds a schema under [id]. *)
Definition absent (services : Services) (project environment id : string)
  : Prop :=
  builtin_files services id = [] /\
  plugin_files services id = [] /\
  DatabaseService_findOne services project (environment +:+ ".schemas") id
    = None /\
  SyncService_getResourceItem services project environment "schemas" id
    = None.

(** ** Parent chains *)

Section Parents.

Variable services : Services.
Variables project environment : string.

(** [ancestry parent ancestors]: following the parent reference [parent]
    resolves, one after the other, exactly the schemas [ancestors] (nearest
    first) and ends at a schema without parent. *)
Inductive ancestry : option string -> list Schema -> Prop :=
  | ancestry_root parent :
      truthy parent = None -> ancestry parent []
  | ancestry_step parent parentId data ancestors :
      truthy parent = Some parentId ->
      fst (resolve services project environment parentId no_options)
        = Return (Some data) ->
      ancestry (parentSchemaId data) ancestors ->
      ancestry parent (data :: ancestors).

(** [id] resolves, under the given options, to a schema whose parent
    reference is [parentId]. *)
Definition resolves_to_child_of (options : Options) (id parentId : string)
  : Prop :=
  exists data,
    fst (resolve services project environment id options)
      = Return (Some data) /\
    truthy (parentSchemaId data) = Some parentId.

(** Every identifier of [ids] resolves to a schema whose parent is again in
    [ids]: following parent references from [ids] never ends. *)
Definition closed_under_parents (ids : string -> Prop) : Prop :=
  forall id, ids id ->
    exists parentId,
      resolves_to_child_of no_options id parentId /\ ids parentId.

(** The identifiers [cycle] form a cycle of parent references: each
    resolves to a schema whose parent is the next one, the last one's
    parent being the first. *)
Definition parent_cycle (cycle : list string) : Prop :=
  cycle <> [] /\
  forall i id, cycle !! i = Some id ->
    exists parentId,
      (cycle ++ cycle) !! (S i) = Some parentId /\
      resolves_to_child_of no_options id parentId.

End Parents.

(** The schema with the fields of its ancestors added, a nearer schema
    keeping its definition of a shared key. *)
Definition effective (data : Schema) (ancestors : list Schema) : Schema :=
  mkSchema (id data) (name data) (icon data) (parentSchemaId data)
    (type data) (isLocked data)
    (fields data ∪ ⋃ (fields <$> ancestors)).

(** What the loop accumulates when every parent comes back already merged
    with its own ancestors. *)
Fixpoint walked (mergedSchema : Schema) (ancestors : list Schema) : Schema :=
  match ancestors with
  | [] => mergedSchema
  | data :: ancestors =>
      walked (merge mergedSchema (effective data ancestors)) ancestors
  end.

(** ** Example schemas *)

Definition page : Schema :=
  mkSchema "page" "Page" "file" None (Some "content") false
    {["title" := "string"]}.

Definition article : Schema :=
  mkSchema "article" "Article" "file" (Some "page") (Some "content") false
    {["body" := "richText"]}.

(** Two custom schemas that name each other as parent. *)
Definition schemaA : Schema :=
  mkSchema "A" "A" "file" (Some "B") (Some "content") false {["a" := "string"]}.

Definition schemaB : Schema :=
  mkSchema "B" "B" "file" (Some "A") (Some "content") false {["b" := "string"]}.

Definition example_records (project collection id : string) : option Schema :=
  if String.eqb id "article" then Some article
  else if String.eqb id "page" then Some page
  else if String.eqb id "A" then Some schemaA
  else if String.eqb id "B" then Some schemaB
  else None.

(** No schema files, no synchronization peer, four custom records.  The
    names in the examples are ASCII, on which the runtime's lowering is
    [toLowerCase]. *)
Definition example_services : Services :=
  mkServices ["app"] (fun _ => []) (fun _ => None) example_records
    (fun _ _ _ _ => None) toLowerCase.

(** A built-in and a plugin file for the schema [string], and a custom
    record under the same identifier. *)
Definition string_document : Schema :=
  mkSchema "" "String" "font" None None false ∅.

Definition file_services : Services :=
  mkServices ["app"]
    (fun glob =>
       if decide (glob = ["app"; "schema"; "*"; "string.json"])
       then [["app"; "schema"; "Field"; "string.json"]]
       else if decide (glob = ["app"; "plugins"; "*"; "schema"; "*";
                               "string.json"])
       then [["app"; "plugins"; "forms"; "schema"; "Content"; "string.json"]]
       else [])
    (fun path => Some string_document)
    (fun project collection id =>
       Some (mkSchema id "Custom" "font" None (Some "field") false ∅))
    (fun _ _ _ _ => None) toLowerCase.

Definition accept_all (options : Options) : bool := true.

(** [options = { withParentFields: true }] *)
Definition parent_fields : Options := mkOptions false false false true.

(** [Options] is bound, [query] is not. *)
Definition query_unbound : Globals := mkGlobals (Some accept_all) None.

(** [query] is bound to an object without the flag, or with it. *)
Definition query_unset : Globals :=
  mkGlobals (Some accept_all) (Some no_options).

Definition query_set : Globals :=
  mkGlobals (Some accept_all) (Some parent_fields).

End SchemaBaseSpec.

(** ** Media *)

Module MediaSpec.

Import Media.

(** ** Example platform, contexts and state *)

(** A MIME table by file extension. *)
Definition example_getMIMEType (filename : string) : string :=
  match extname filename with
  | ".jpg" => "image/jpeg"
  | ".png" => "image/png"
  | ".svg" => "image/svg+xml"
  | _ => "application/octet-stream"
  end.

(** The code units of a string of ASCII characters. *)
Fixpoint units (s : string) : Name :=
  match s with
  | EmptyString => []
  | String c r => N_of_ascii c :: units r
  end.

(** The file name, else the identifier; the names of the examples are
    ASCII. *)
Definition display_name (resource : Media) : Name :=
  units (default (id resource) (filename resource)).

(** A platform whose [convert] works, and one where it is not installed. *)
Definition example_platform : Platform :=
  mkPlatform ["app"] example_getMIMEType
    (fun cmd source => Some ("scaled:" +:+ source))
    (fun s => s) (fun b => b)
    (fun records => "m" +:+ pretty (length records))
    display_name.

Definition no_convert_platform : Platform :=
  mkPlatform ["app"] example_getMIMEType (fun cmd source => None)
    (fun s => s) (fun b => b)
    (fun records => "m" +:+ pretty (length records))
    display_name.

(** An environment with a media deployer, and one without. *)
Definition deploying_context : Context :=
  mkContext
    (mkProject "project"
       (fun environment section =>
          if String.eqb section "mediaDeployer"
          then Some (mkSettings (Some "filesystem") ["media"])
          else None))
    "live".

Definition bare_context : Context :=
  mkContext (mkProject "project" (fun environment section => None)) "live".

Definition empty_world : World := mkWorld [] ∅ ∅ ∅ [].

(** ** The deployer of a context *)

(** The environment of the context has no media deployer configured: no
    deployer settings, or settings without an alias. *)
Definition configured_alias (context : Context) : option string :=
  match getEnvironmentSettings (project context) (environment context)
          "mediaDeployer" with
  | None => None
  | Some settings => truthy (alias settings)
  end.

Definition no_deployer_configured (context : Context) : Prop :=
  configured_alias context = None.

(** The deployer [getDeployer] returns, if any. *)
Definition deployer_of (context : Context) : option Deployer :=
  match getEnvironmentSettings (project context) (environment context)
          "mediaDeployer" with
  | None => None
  | Some settings =>
      match truthy (alias settings) with
      | None => None
      | Some _ => Some (mkDeployer settings context)
      end
  end.

(** ** Thumbnail generation *)

Section Thumbnail.

Variable platform : Platform.

(** The file name has an image type other than SVG. *)
Definition raster (filename : string) : bool :=
  contains "image" (getMIMEType platform filename) &&
  negb (contains "svg" (getMIMEType platform filename)).

Definition tempFolder (context : Context) : Path :=
  APP_ROOT platform ++
  ["storage"; project_id (project context); environment context; "media"].

Definition tempFile (context : Context) (filename : string) : Path :=
  tempFolder context ++ ["thumbnail" +:+ extname filename].

Definition convert_command (context : Context) (filename : string)
    (width height : nat) : string :=
  "convert " +:+ path_string (tempFile context filename) +:+
  " -auto-orient -resize " +:+ pretty width +:+
  (match height with O => "" | _ => "x" +:+ pretty height end) +:+
  "\> " +:+ path_string (tempFile context filename).

(** Nothing of the temporary folder is left on local storage. *)
Definition temp_removed (context : Context) (w : World) : Prop :=
  forall p, tempFolder context `prefix_of` p ->
    (p ∉ directories w) /\ (files w !! p = None).

End Thumbnail.

(** [create] of [cat.png] in a deploying context. *)
Definition cat_data : Data := mkData "cat.png" ∅.
Definition cat_options : CreateOptions :=
  mkCreateOptions (Some "cat.png") "cat".
Definition cat_resource : Media :=
  mkMedia "m0" (Some "cat.png") (Some deploying_context) ∅.

(** ** Reading one resource back *)

(** The first file of a folder listing that is not the thumbnail. *)
Definition content_file (files : Datatypes.list Path) : option Path :=
  List.find (fun file => negb (String.eqb (basename file) "thumbnail.jpg"))
            files.

(** What [getFolder] lists for the folder of [id'], through the deployer of
    the context. *)
Definition folder_listing (context : Context) (id' : string) (w : World)
  : Datatypes.list Path :=
  match deployer_of context with
  | Some deployer =>
      map fst (map_to_list
                 (filter (fun kv => below (getPath deployer [Some id']) 1
                                      (fst kv))
                         (deployed w)))
  | None => []
  end.

(** A file other than the thumbnail is deployed in the folder of [id']. *)
Definition content_deployed (context : Context) (id' : string) (w : World)
  : Prop :=
  exists deployer file,
    deployer_of context = Some deployer /\
    is_Some (deployed w !! file) /\
    below (getPath deployer [Some id']) 1 file /\
    basename file <> "thumbnail.jpg".

(** The resource made up from a deployed file alone. *)
Definition synthesized (context : Context) (id' : string) (file : Path)
  : Media :=
  mkMedia id' (Some (basename file)) (Some context) ∅.

(** ** Listing: reconciling files and records *)

(** The identifier a deployed file belongs to, and whether the file is
    content rather than the thumbnail. *)
Definition file_id (file : Path) : string := basename (dirname file).

Definition is_content (file : Path) : Prop :=
  basename file <> "thumbnail.jpg".

Section Reconcile.

Variable context : Context.
Variable resources : Datatypes.list Media.

(** An entry that is a record no content file was found for. *)
Definition from_record (files : Datatypes.list Path) (k : string) (v : Media)
  : Prop :=
  v ∈ resources /\ forall file, file ∈ files -> is_content file ->
                                file_id file <> k.

(** An entry associated with a content file: it has the file's name and
    the context, on top of the record of its identifier if there is one. *)
Definition from_file (files : Datatypes.list Path) (k : string) (v : Media)
  : Prop :=
  (exists file, file ∈ files /\ is_content file /\ file_id file = k /\
                filename v = Some (basename file)) /\
  Media.context v = Some context /\
  ((exists r, r ∈ resources /\ id r = k /\ metadata v = metadata r) \/
   ((forall r, r ∈ resources -> id r <> k) /\ metadata v = ∅)).

(** The map after the records and the files [files] were gone through:
    an own property for every record (but one named [__proto__]) and for
    every folder with a content file whose name no inherited member
    has. *)
Definition reconciled (files : Datatypes.list Path)
    (m : Datatypes.list (string * Media)) : Prop :=
  NoDup m.*1 /\
  (forall k v, lookup_key m k = Some v ->
     id v = k /\ (from_record files k v \/ from_file files k v)) /\
  (forall k, is_Some (lookup_key m k) <->
     (exists r, r ∈ resources /\ id r = k /\ k <> "__proto__") \/
     (exists file, file ∈ files /\ is_content file /\ file_id file = k /\
                   inherited k = false)).

End Reconcile.

(** Case-sensitive lexicographic order of the display names, code unit
    by code unit: [b] is not smaller than [a]. *)
Definition name_le (platform : Platform) (a b : Media) : Prop :=
  String_lt (getName platform b) (getName platform a) = false.

(** What [getFolder] lists two levels below the root, through the deployer
    of the context. *)
Definition root_listing (context : Context) (w : World)
  : Datatypes.list Path :=
  match deployer_of context with
  | Some deployer =>
      map fst (map_to_list
                 (filter (fun kv => below (getPath deployer []) 2 (fst kv))
                         (deployed w)))
  | None => []
  end.

(** No record and no folder is named [__proto__], the one name under
    which the map of [list] is not an ordinary map. *)
Definition no_prototype_key (context : Context) (w : World) : Prop :=
  Forall (fun r => id r <> "__proto__") (database w) /\
  Forall (fun file => file_id file <> "__proto__") (root_listing context w).

(** A deployer that holds nothing but the thumbnail of [abc]. *)
Definition thumbnail_only_world : World :=
  mkWorld [] {[ ["media"; "abc"; "thumbnail.jpg"] := "scaled" ]} ∅ ∅ [].

End MediaSpec.

(** * Part 3b: vocabulary for the remaining Media operations *)

Module MediaMoreSpec.

Import Media MediaSpec MediaMore.

(** The folder of a resource on its deployer, and the place of its
    thumbnail. *)
Definition folder_of (deployer : Deployer) (id' : string) : Path :=
  getPath deployer [Some id'].

Definition thumbnail_of (deployer : Deployer) (id' : string) : Path :=
  getPath deployer [Some id'; Some "thumbnail.jpg"].

(** [w'] differs from [w] in deployed files only below [folder]. *)
Definition deployed_outside (folder : Path) (w w' : World) : Prop :=
  forall p, ~ folder `prefix_of` p -> deployed w' !! p = deployed w !! p.

(** [w'] differs from [w] in deployed files at most at [path]. *)
Definition deployed_except (path : Path) (w w' : World) : Prop :=
  forall p, p <> path -> deployed w' !! p = deployed w !! p.

(** [w'] differs from [w] only in local storage, and there only below
    [folder]. *)
Definition storage_outside (folder : Path) (w w' : World) : Prop :=
  database w' = database w /\
  deployed w' = deployed w /\
  deployer_calls w' = deployer_calls w /\
  forall p, ~ folder `prefix_of` p ->
    files w' !! p = files w !! p /\
    (p ∈ directories w' <-> p ∈ directories w).

(** A program whose every run relates the state before to the state
    after, however it ends. *)
Definition preserves {A} (R : World -> World -> Prop) (m : M A) : Prop :=
  forall w, R w (snd (m w)).

(** An instance method [generateThumbnail], if instances have one, does
    not touch the deployer's files. *)
Definition leaves_deployed
    (generate : option (Context -> option string -> Buffer ->
                        M (option Buffer))) : Prop :=
  match generate with
  | None => True
  | Some generate =>
      forall context filename data w,
        deployed (snd (generate context filename data w)) = deployed w
  end.

(** The record [create] persists. *)
Definition created_record (platform : Platform) (context : Context)
    (data : Data) (w : World) : Media :=
  mkMedia (createId platform (database w)) (Some (data_filename data))
    (Some context) (data_metadata data).

(** Example collaborators of [save] and [getContentUrl]. *)
Definition example_publicUrl (deployer : Deployer) (path : Path) : Path :=
  "https://cdn.example" :: path.

Definition example_saveRecord (this : Media) (records : Datatypes.list Media)
  : Datatypes.list Media :=
  List.filter (fun r => negb (String.eqb (id r) (id this))) records ++ [this].

(** A resource without a context, one in an environment without deployer,
    and a record that lost its file name. *)
Definition detached_resource : Media := mkMedia "m0" (Some "cat.png") None ∅.

Definition bare_resource : Media :=
  mkMedia "m0" (Some "cat.png") (Some bare_context) ∅.

Definition nameless_resource : Media :=
  mkMedia "m0" None (Some deploying_context) ∅.

(** The state after [cat.png] was created in the empty world. *)
Definition cat_world : World :=
  snd (create example_platform deploying_context cat_data cat_options
         empty_world).

Definition explicit_options : SaveOptions :=
  mkSaveOptions (Some "dog.png") (Some "dog") (ThumbnailData "small").

Definition regenerate_options : SaveOptions :=
  mkSaveOptions (Some "dog.png") (Some "dog") ThumbnailUndefined.

End MediaMoreSpec.

(** * Part 3c: vocabulary for the remaining SchemaBase operations *)

Module SchemaBaseMoreSpec.

Import SchemaBase SchemaBaseSpec SchemaBaseMore.

(** A custom schema whose parent exists nowhere. *)
Definition orphan : Schema :=
  mkSchema "orphan" "Orphan" "file" (Some "gone") (Some "content") false
    {["o" := "string"]}.

Definition orphan_services : Services :=
  mkServices ["app"] (fun _ => []) (fun _ => None)
    (fun project collection id =>
       if String.eqb id "orphan" then Some orphan else None)
    (fun _ _ _ _ => None) toLowerCase.

(** [options = { localOnly: true }] and
    [options = { customOnly: true, nativeOnly: true }] *)
Definition local_only : Options := mkOptions false false true false.


(** A [super.create] that would persist anything. *)
Definition example_create (this : SchemaClass) (user : User)
    (project environment : string) (data : CreateData) : M Entity :=
  ret (construct this
         (mkSchema (data_id data) "" "" (data_parentId data)
            (type_of_class this) false ∅)).

(** What [list] gathers before it filters, without a synchronization
    peer: the schema files read, then the custom records. *)
Definition file_paths (services : Services) (options : ListOptions)
  : Datatypes.list Path :=
  if list_customOnly options then []
  else
    FileService_list services
      (APP_ROOT services ++ ["schema"; "*"; "*.json"]) ++
    FileService_list services
      (APP_ROOT services ++ ["plugins"; "*"; "schema"; "*"; "*.json"]).

Definition custom_records (listServices : ListServices)
    (environment : string) (options : ListOptions)
  : outcome (Datatypes.list Schema) :=
  if list_nativeOnly options then Return []
  else
    DatabaseService_find listServices (list_project options)
      (environment +:+ ".schemas").

(** One built-in field schema, and custom records of the three kinds. *)
Definition list_files : Services :=
  mkServices ["app"]
    (fun glob =>
       if decide (glob = ["app"; "schema"; "*"; "*.json"])
       then [["app"; "schema"; "Field"; "string.json"]]
       else [])
    (fun path => Some string_document)
    (fun _ _ _ => None)
    (fun _ _ _ _ => None) toLowerCase.

Definition untyped : Schema :=
  mkSchema "legacy" "Legacy" "file" None None false ∅.

Definition list_records : ListServices :=
  mkListServices
    (fun project collection => Return [page; untyped])
    (fun project environment resource list => Return list).

Definition local_list : ListOptions := mkListOptions false false true None.

End SchemaBaseMoreSpec.

(** * Part 3d: vocabulary for the schema import *)

Module SchemaImportSpec.

Import SchemaImport.

(** Induction over JSON values, with the property at hand for the items
    of an array and the values of an object. *)
Section JsonInduction.

Variable P : Json -> Prop.

Hypothesis Hnull : P JNull.
Hypothesis Hbool : forall b, P (JBool b).
Hypothesis Hnumber : forall n, P (JNumber n).
Hypothesis Hstring : forall s, P (JString s).
Hypothesis Harray : forall items, Forall P items -> P (JArray items).
Hypothesis Hobject :
  forall entries, Forall (fun kv => P (snd kv)) entries -> P (JObject entries).


End JsonInduction.

(** The type a key resolves to: [type['@type']] when the value has one
    that is truthy, the value otherwise. *)
Definition typeOf (value : Json) : Json :=
  match value with
  | JObject typeEntries =>
      match lookup_entry "@type" typeEntries with
      | Some v => if truthy_value v then v else value
      | None => value
      end
  | _ => value
  end.

(** The loop of [getFields] over the keys still to do. *)
Fixpoint each (strings : StringOps) (entries : list (string * Json))
    (i18n : Json) (todo : list (string * Json)) (fields : Fields)
  : outcome Fields :=
  match todo with
  | [] => Return fields
  | (key, value) :: todo =>
      if is_annotation key then each strings entries i18n todo fields
      else
        match i18n with
        | JNull =>
            Throw (TypeError
                     ("Cannot read property '" +:+ key +:+ "' of null"))
        | _ =>
            let info := or_else (property i18n key) (JObject []) in
            match fieldDef strings (lookup_entry "@type" entries) key info
                    (typeOf value) (getFields strings (typeOf value) info) with
            | Return def =>
                each strings entries i18n todo (set_property fields key def)
            | Throw e => Throw e
            | Hang => Hang
            end
        end
  end.

(** The keys of a document that become fields. *)
Definition becomes_field (key : string) : bool :=
  negb (is_annotation key) && negb (String.eqb key "__proto__").

(** A definition without its texts. *)
Fixpoint shape (def : Def) : Def :=
  match def with
  | mkDef _ _ schemaId config =>
      mkDef JNull JNull schemaId
        match config with
        | Struct fields =>
            Struct
              ((fix shapes (fields : list (string * Def)) :=
                  match fields with
                  | [] => []
                  | (key, def) :: fields => (key, shape def) :: shapes fields
                  end) fields)
        | other => other
        end
  end.

Definition shapes (fields : Fields) : Fields :=
  (fun field => (fst field, shape (snd field))) <$> fields.




(** The string primitives on strings of ASCII characters, which is what
    the examples hold. *)
Definition ascii_strings : StringOps :=
  mkStringOps
    (fun s =>
       match s with
       | EmptyString => None
       | String c _ => Some (String c EmptyString)
       end)
    (fun s =>
       match s with
       | EmptyString => EmptyString
       | String _ rest => rest
       end)
    toLowerCase.

Definition is_ascii (c : ascii) : bool := (nat_of_ascii c <? 128)%nat.

(** [strings] gives, for a string that starts with an ASCII character,
    what the runtime gives: that character, the rest, and the character
    with [A] to [Z] lowered; and no first character for the empty
    string. *)
Definition ascii_faithful (strings : StringOps) : Prop :=
  charAt0 strings EmptyString = None /\
  forall c rest, is_ascii c = true ->
    charAt0 strings (String c rest) = Some (String c EmptyString) /\
    substring1 strings (String c rest) = rest /\
    lowerCase strings (String c EmptyString)
      = String (lower_ascii c) EmptyString.

(** A document, and its texts in two languages. *)
Definition person_entries : list (string * Json) :=
  [("@type", JString "Person");
   ("@i18n", JObject []);
   ("name", JString "text");
   ("age", JString "int");
   ("portrait", JObject [("@type", JString "Image")]);
   ("address",
    JObject [("street", JString "string"); ("city", JString "City")]);
   ("tags", JArray [JString "Tag"; JString "Category"])].

Definition person : Json := JObject person_entries.

Definition person_en : Json :=
  JObject
    [("name", JObject [("@name", JString "Name")]);
     ("address",
      JObject [("@name", JString "Address");
               ("street", JObject [("@name", JString "Street")])])].


End SchemaImportSpec.

(** * Part 4: properties of SchemaBase.get *)

Module SchemaBaseFacts.

Import SchemaBase SchemaBaseSpec.

(** ** The monad *)

Lemma bind_fst_Hang {A B} (m : M A) (k : A -> M B) :
  fst m = Hang -> fst (bind m k) = Hang.
Proof. destruct m as [[a| e|] t]; simpl; intros H; by inversion H. Qed.

Lemma bind_fst_Return {A B} (m : M A) (k : A -> M B) a :
  fst m = Return a -> fst (bind m k) = fst (k a).
Proof.
  destruct m as [[a'| e'|] t]; simpl; intros H; inversion H; subst.
  by destruct (k a).
Qed.

Lemma bind_ret {A B} (a : A) (k : A -> M B) : bind (ret a) k = k a.
Proof. unfold bind, ret. by destruct (k a). Qed.

Lemma bind_snd_prefix {A B} (m : M A) (k : A -> M B) :
  exists rest, snd (bind m k) = snd m ++ rest.
Proof.
  destruct m as [[a| e|] t]; simpl.
  - destruct (k a) as [r t']. by exists t'.
  - exists []. by rewrite app_nil_r.
  - exists []. by rewrite app_nil_r.
Qed.

(** ** Unfolding [get] and [walk] *)

Lemma get_unfold globals services fuel project environment id options :
  get globals services (S fuel) project environment id options =
  (checkParam_options globals options;;;
   data <- resolve services project environment id options;;
   data <-
     (match data with
      | None => ret None
      | Some d =>
          match global_query globals with
          | None => throw (ReferenceError "query")
          | Some query =>
              match withParentFields query, truthy (parentSchemaId d) with
              | true, Some _ =>
                  mergedSchema <-
                    walk (fun parentId =>
                            get globals services fuel project environment
                              parentId no_options)
                         fuel d d;;
                  ret (Some mergedSchema)
              | _, _ => ret (Some d)
              end
          end
      end);;
   match data with
   | None => throw (TypeError "Cannot read property 'type' of null")
   | Some d => ret (instantiate d)
   end).
Proof. reflexivity. Qed.

Lemma walk_hangs get_parent n mergedSchema childSchema parentId :
  truthy (parentSchemaId childSchema) = Some parentId ->
  fst (get_parent parentId) = Hang ->
  fst (walk get_parent n mergedSchema childSchema) = Hang.
Proof.
  intros Hparent Hhang. destruct n as [|n]; simpl; rewrite Hparent.
  - reflexivity.
  - by apply bind_fst_Hang.
Qed.

(** ** The resolution order *)

Example toLowerCase_Field : toLowerCase "Field" = "field".
Proof. reflexivity. Qed.

Example parentDirName_builtin :
  parentDirName ["app"; "schema"; "Field"; "string.json"] = "Field".
Proof. reflexivity. Qed.

(** With a built-in file, a plugin file and a custom record for [string],
    both globs are listed, the built-in file is read and its record is
    returned locked; the database is not consulted. *)
Example resolve_builtin_wins :
  resolve file_services "project" "live" "string" no_options =
  (Return (Some (mkSchema "string" "String" "font" None (Some "field") true ∅)),
   [FileList ["app"; "schema"; "*"; "string.json"];
    FileList ["app"; "plugins"; "*"; "schema"; "*"; "string.json"];
    FileRead ["app"; "schema"; "Field"; "string.json"]]).
Proof. reflexivity. Qed.

(** With [customOnly] the files are not listed and the custom record is
    returned. *)
Example resolve_customOnly :
  resolve file_services "project" "live" "string"
    (mkOptions true false false false) =
  (Return (Some (mkSchema "string" "Custom" "font" None (Some "field") false ∅)),
   [DbFindOne "project" "live.schemas" "string"]).
Proof. reflexivity. Qed.

(** Lines 57-91 are the first-hit lookup over the tiers, both in the
    record found and in the service calls made. *)
Lemma resolve_tier_order services project environment id options :
  resolve services project environment id options =
  first_hit [file_tier services id options;
             custom_tier services project environment id options;
             sync_tier services project environment id options].
Proof.
  unfold resolve, file_tier, custom_tier, sync_tier, builtin_files,
    plugin_files, file_record.
  destruct options as [custom native loc parents]; simpl.
  set (core := FileService_list services _).
  set (plugins := FileService_list services _).
  destruct custom, native, loc; simpl;
    destruct core as [|p ?]; simpl;
    destruct plugins as [|p' ?]; simpl;
    repeat match goal with
      | |- context [FileService_read services ?x] =>
          destruct (FileService_read services x); simpl
      | |- context [DatabaseService_findOne services ?a ?b ?c] =>
          destruct (DatabaseService_findOne services a b c); simpl
      | |- context [SyncService_getResourceItem services ?a ?b ?c ?d] =>
          destruct (SyncService_getResourceItem services a b c d); simpl
      end;
    reflexivity.
Qed.

(** Once its [options] argument is accepted, the service calls of [get]
    start with those of the lookup. *)
Lemma get_calls_start_with_lookup globals services fuel project environment
    id options accepts :
  global_Options globals = Some accepts ->
  accepts options = true ->
  exists rest,
    snd (get globals services (S fuel) project environment id options) =
    snd (resolve services project environment id options) ++ rest.
Proof.
  intros HOptions Haccepts.
  rewrite get_unfold. unfold checkParam_options.
  rewrite HOptions, Haccepts, bind_ret.
  apply bind_snd_prefix.
Qed.

(** C4. [get] consults its sources in the fixed order of the tiers, with
    short-circuiting, once its [options] argument has passed the parameter
    check of line 55; a call that does not pass it consults nothing.

    The check is handed the identifier [Options], which [get] does not
    declare.  Where it is unbound, every call is rejected with a
    [ReferenceError] before any source is consulted.  Where it is bound
    and accepts the options, the service calls of [get] start with those
    of the tiers consulted in order: the built-in then the plugin schema
    files unless [customOnly] (a built-in file wins, the record found is
    marked locked), the custom record only if nothing was found and
    [nativeOnly] is unset, the synchronization source only if still
    nothing was found and neither [localOnly] nor [nativeOnly] is set.
    What [get] does next is decided by the first hit: a failed read
    rejects the call, no hit rejects it with the [TypeError] of reading
    [type] from null, and a record that needs no parent walk is the one
    instantiated, with no further service call. *)
Theorem get_tier_order globals services fuel project environment id options :
  let lookup :=
    first_hit (tiers services project environment id options) in
  let result :=
    get globals services (S fuel) project environment id options in
  match global_Options globals with
  | None => result = (Throw (ReferenceError "Options"), [])
  | Some accepts =>
      if accepts options then
        (exists rest, snd result = snd lookup ++ rest) /\
        (forall e, fst lookup = Throw e -> result = (Throw e, snd lookup)) /\
        (fst lookup = Return None ->
         result =
           (Throw (TypeError "Cannot read property 'type' of null"),
            snd lookup)) /\
        (forall data query,
            fst lookup = Return (Some data) ->
            global_query globals = Some query ->
            withParentFields query = false \/
              truthy (parentSchemaId data) = None ->
            result = (Return (instantiate data), snd lookup))
      else result = (Throw (ParamError "options"), [])
  end.
Proof.
  cbv zeta. rewrite get_unfold. unfold checkParam_options, tiers.
  destruct (global_Options globals) as [accepts|]; [|done].
  destruct (accepts options); [|done].
  rewrite bind_ret, resolve_tier_order.
  destruct (first_hit _) as [[[data|]|e|] calls]; simpl.
  - split; [|split; [done|split; [done|]]].
    + destruct (global_query globals) as [query|]; simpl;
        [|exists []; by rewrite app_nil_r].
      destruct (withParentFields query), (truthy (parentSchemaId data));
        simpl; try (exists []; by rewrite app_nil_r).
      destruct (walk _ _ _ _) as [[merged| |] walked]; simpl;
        try rewrite app_nil_r; by eexists.
    + intros found query [= <-] -> Hnowalk.
      destruct Hnowalk as [-> | ->]; simpl.
      * by rewrite app_nil_r.
      * destruct (withParentFields query); simpl; by rewrite app_nil_r.
  - split; [exists []; by rewrite app_nil_r|].
    split; [done|]. split; [by rewrite app_nil_r|]. by intros ? ? [=].
  - split; [by exists []; rewrite app_nil_r|].
    split; [by intros ? [= <-]|]. split; [done|]. by intros ? ? [=].
  - split; [by exists []; rewrite app_nil_r|].
    split; [done|]. split; [done|]. by intros ? ? [=].
Qed.

(** ** Absent schemas *)

Lemma resolve_absent services project environment id options :
  absent services project environment id ->
  fst (resolve services project environment id options) = Return None.
Proof.
  unfold absent, builtin_files, plugin_files, resolve.
  intros (Hcore & Hplugin & Hdb & Hsync).
  rewrite Hcore, Hplugin, Hdb, Hsync. simpl.
  by destruct (customOnly options), (nativeOnly options), (localOnly options).
Qed.

(** C3 (as the code behaves). When no built-in file, plugin file, custom
    record or synchronized copy exists for the identifier, [get] does not
    return null: whatever the options, the call is rejected.  Once the
    [options] argument has been accepted, [data] is still [null] when its
    [type] is read, and the error is that [TypeError]. *)
Theorem get_absent_throws globals services fuel project environment id
    options :
  absent services project environment id ->
  exists e,
    fst (get globals services (S fuel) project environment id options)
      = Throw e /\
    (forall accepts,
        global_Options globals = Some accepts -> accepts options = true ->
        e = TypeError "Cannot read property 'type' of null").
Proof.
  intros Habsent.
  pose proof (resolve_absent services project environment id options Habsent)
    as Hresolve.
  cbn [get]. unfold checkParam_options.
  destruct (global_Options globals) as [accepts|].
  - destruct (accepts options) eqn:Haccepts.
    + destruct (resolve services project environment id options) as [r t].
      simpl in Hresolve. subst r. eexists. split; [reflexivity|done].
    + eexists. split; [reflexivity|]. intros ? [= <-]. congruence.
  - eexists. split; [reflexivity|]. discriminate.
Qed.

Lemma get_absent_throws_witness :
  exists e,
    fst (get query_unbound example_services 1 "project" "live" "missing"
           no_options) = Throw e /\
    e = TypeError "Cannot read property 'type' of null".
Proof.
  destruct (get_absent_throws query_unbound example_services 0 "project"
              "live" "missing" no_options) as (e & Hthrow & Herror).
  { repeat split. }
  exists e. split; [exact Hthrow|].
  apply (Herror accept_all); reflexivity.
Defined.

(** C1 (as the code behaves). [get] never reads [options.withParentFields]:
    the walk is gated by the free identifier [query].  Resolving [article]
    (parent [page], fields {body}) with [options.withParentFields] set is
    rejected with a [ReferenceError] when [query] is unbound, and returns
    [article] with its own field only when [query] is bound to an object
    that lacks the flag; the fields {title, body} are obtained only when
    the global [query] carries the flag. *)
Theorem get_article_ignores_options :
  fst (get query_unbound example_services 3 "project" "live" "article"
         parent_fields) = Throw (ReferenceError "query") /\
  fst (get query_unset example_services 3 "project" "live" "article"
         parent_fields) = Return (ContentSchema article) /\
  fst (get query_set example_services 3 "project" "live" "article"
         no_options) =
  Return (ContentSchema
            (mkSchema "article" "Article" "file" (Some "page")
               (Some "content") false
               {["body" := "richText"; "title" := "string"]})).
Proof.
  split; [|split].
  - reflexivity.
  - reflexivity.
  - vm_compute. reflexivity.
Qed.

(** ** The parent walk on a chain that reaches a root *)

Section Chain.

Variable globals : Globals.
Variable services : Services.
Variables project environment : string.

Lemma walked_effective mergedSchema ancestors :
  walked mergedSchema ancestors = effective mergedSchema ancestors.
Proof.
  revert mergedSchema.
  induction ancestors as [|data ancestors IH]; intros mergedSchema.
  - destruct mergedSchema. unfold effective. simpl. f_equal.
    by rewrite (right_id_L ∅ (∪)).
  - simpl. rewrite IH. unfold effective, merge. simpl. f_equal.
    change (list_fmap Schema (gmap string FieldDef) fields ancestors)
      with (fields <$> ancestors).
    generalize (⋃ (fields <$> ancestors)); intros inherited.
    rewrite <- (assoc_L (∪) (fields mergedSchema)). f_equal.
    rewrite <- (assoc_L (∪) (fields data)). f_equal.
    apply (idemp_L (∪)).
Qed.

Lemma data_of_instantiate data : data_of (instantiate data) = data.
Proof.
  unfold instantiate.
  destruct (type data) as [tag|]; [|done].
  repeat (destruct tag as [|[[] [] [] [] [] [] [] []] tag]; try done).
Qed.

Lemma walk_chain get_parent fuel ancestors :
  (forall parentId data rest,
      fst (resolve services project environment parentId no_options)
        = Return (Some data) ->
      ancestry services project environment (parentSchemaId data) rest ->
      length rest < fuel ->
      fst (get_parent parentId) = Return (instantiate (effective data rest))) ->
  length ancestors <= fuel ->
  forall n mergedSchema childSchema,
    ancestry services project environment (parentSchemaId childSchema)
      ancestors ->
    length ancestors <= n ->
    fst (walk get_parent n mergedSchema childSchema)
      = Return (walked mergedSchema ancestors).
Proof.
  intros Hget.
  induction ancestors as [|data rest IH];
    intros Hfuel n mergedSchema childSchema Hanc Hn.
  - inversion Hanc as [? Hroot|]; subst.
    destruct n; simpl; by rewrite Hroot.
  - inversion Hanc as [|? parentId ? ? Hparent Hresolve Hrest]; subst.
    simpl in Hfuel, Hn.
    destruct n as [|n]; [lia|]. simpl. rewrite Hparent.
    rewrite (bind_fst_Return _ _ _ (Hget parentId data rest Hresolve Hrest
                                      ltac:(lia))).
    rewrite data_of_instantiate.
    apply IH; [lia| |lia]. exact Hrest.
Qed.

(** When the flag the code reads is set, [get] returns the schema with the
    fields of all its ancestors, the nearer definition winning. *)
Lemma get_chain_union accepts query :
  global_Options globals = Some accepts ->
  (forall options, accepts options = true) ->
  global_query globals = Some query ->
  withParentFields query = true ->
  forall fuel id options data ancestors,
    fst (resolve services project environment id options)
      = Return (Some data) ->
    ancestry services project environment (parentSchemaId data) ancestors ->
    length ancestors < fuel ->
    fst (get globals services fuel project environment id options)
      = Return (instantiate (effective data ancestors)).
Proof.
  intros HOptions Haccepts Hquery Hflag.
  induction fuel as [|fuel IH]; intros id options data ancestors Hres Hanc Hlen.
  - lia.
  - rewrite get_unfold. unfold checkParam_options.
    rewrite HOptions, Haccepts, bind_ret.
    rewrite (bind_fst_Return _ _ _ Hres).
    rewrite Hquery, Hflag.
    destruct (truthy (parentSchemaId data)) as [parentId|] eqn:Hparent.
    + rewrite (bind_fst_Return _ _ (Some (effective data ancestors)));
        [reflexivity|].
      rewrite (bind_fst_Return _ _ (effective data ancestors));
        [reflexivity|].
      rewrite <- walked_effective.
      apply walk_chain with fuel; try done; try lia.
      intros p d rest Hp Hrest Hlt. by apply IH.
    + rewrite bind_ret.
      inversion Hanc as [? Hroot|? ? ? ? Hsome]; subst; [|congruence].
      rewrite <- walked_effective. reflexivity.
Qed.

End Chain.

(** ** Parent references that never reach a root *)

Section Cycle.

Variable globals : Globals.
Variable services : Services.
Variables project environment : string.

Lemma get_unending_hangs (ids : string -> Prop) accepts query :
  global_Options globals = Some accepts ->
  (forall options, accepts options = true) ->
  global_query globals = Some query ->
  withParentFields query = true ->
  closed_under_parents services project environment ids ->
  forall fuel options id parentId,
    resolves_to_child_of services project environment options id parentId ->
    ids parentId ->
    fst (get globals services fuel project environment id options) = Hang.
Proof.
  intros HOptions Haccepts Hquery Hflag Hclosed.
  induction fuel as [|fuel IH]; intros options id parentId Hres Hin.
  - reflexivity.
  - destruct Hres as (data & Hresolve & Hparent).
    rewrite get_unfold. unfold checkParam_options.
    rewrite HOptions, Haccepts, bind_ret.
    rewrite (bind_fst_Return _ _ _ Hresolve).
    rewrite Hquery, Hflag, Hparent.
    do 2 apply bind_fst_Hang.
    apply walk_hangs with parentId; [done|].
    destruct (Hclosed parentId Hin) as (grandparentId & Hres' & Hin').
    by apply IH with grandparentId.
Qed.

Lemma parent_cycle_closed cycle :
  parent_cycle services project environment cycle ->
  closed_under_parents services project environment (fun id => id ∈ cycle).
Proof.
  intros [Hne Hnext] id Hin.
  apply list_elem_of_lookup in Hin as [i Hi].
  destruct (Hnext i id Hi) as (parentId & Hlook & Hres).
  exists parentId. split; [done|].
  apply list_elem_of_lookup_2 in Hlook.
  apply elem_of_app in Hlook. tauto.
Qed.

(** C2 (amended). [get] has no cycle detection.  For every schema on a
    cycle of parent references whose members all resolve, resolving it
    with the parent walk enabled (the [withParentFields] flag read by the
    code is set) never completes: whatever the fuel, the call is still
    running, so it neither returns nor fails with any error. *)
Theorem get_cycle_never_completes cycle accepts query options id :
  global_Options globals = Some accepts ->
  (forall options, accepts options = true) ->
  global_query globals = Some query ->
  withParentFields query = true ->
  parent_cycle services project environment cycle ->
  id ∈ cycle ->
  (exists parentId,
      resolves_to_child_of services project environment options id parentId /\
                    parentId ∈ cycle) ->
  forall fuel,
    fst (get globals services fuel project environment id options) = Hang.
Proof.
  intros HOptions Haccepts Hquery Hflag Hcycle Hid (parentId & Hres & Hin) fuel.
  apply parent_cycle_closed in Hcycle.
  eapply get_unending_hangs; eauto.
Qed.

End Cycle.

Lemma example_cycle :
  parent_cycle example_services "project" "live" ["A"; "B"].
Proof.
  split; [done|].
  intros [|[|i]] id Hi; simpl in Hi; inversion Hi; subst.
  - exists "B". split; [done|]. by exists schemaA.
  - exists "A". split; [done|]. by exists schemaB.
Qed.

Lemma get_cycle_never_completes_witness :
  fst (get query_set example_services 1000 "project" "live" "A"
         parent_fields) = Hang.
Proof.
  apply (get_cycle_never_completes query_set example_services "project"
           "live" ["A"; "B"] accept_all parent_fields parent_fields "A").
  - reflexivity.
  - reflexivity.
  - reflexivity.
  - reflexivity.
  - exact example_cycle.
  - set_solver.
  - exists "B". split; [by exists schemaA | set_solver].
Defined.

(** C2 (as stated, refuted).  With schemas [A] and [B] naming each other as
    parent, resolving [A] with [options.withParentFields] never fails with
    a cycle error.  Where the flag the code reads is set, no amount of fuel
    makes the call end in any error: it runs forever.  Where [query] is
    unbound the call is rejected with a [ReferenceError], and where [query]
    lacks the flag it returns [A] unmerged. *)
Lemma get_cycle_A_B_does_not_fail :
  (~ exists fuel e,
       fst (get query_set example_services fuel "project" "live" "A"
              parent_fields) = Throw e) /\
  (forall fuel,
      fst (get query_unbound example_services (S fuel) "project" "live" "A"
             parent_fields) = Throw (ReferenceError "query")) /\
  (forall fuel,
      fst (get query_unset example_services (S fuel) "project" "live" "A"
             parent_fields) = Return (ContentSchema schemaA)).
Proof.
  split; [|split].
  - intros (fuel & e & Hthrow).
    assert (fst (get query_set example_services fuel "project" "live" "A"
                   parent_fields) = Hang) as Hhang.
    { eapply (get_unending_hangs query_set example_services "project" "live"
                (fun id => id ∈ ["A"; "B"]) accept_all parent_fields);
        try reflexivity.
      - apply parent_cycle_closed, example_cycle.
      - by exists schemaA.
      - set_solver. }
    congruence.
  - intros fuel. rewrite get_unfold. reflexivity.
  - intros fuel. rewrite get_unfold. reflexivity.
Qed.

End SchemaBaseFacts.

(** * Part 5: properties of Media *)

Module MediaFacts.

Import Media MediaSpec.

(** ** Library functions *)

Example extname_png : extname "cat.png" = ".png".
Proof. reflexivity. Qed.

Example extname_hidden : extname ".htaccess" = "".
Proof. reflexivity. Qed.

Example extname_folder : extname "v1.2/readme" = "".
Proof. reflexivity. Qed.

Example extname_trailing_separator : extname "cat.png/" = ".png".
Proof. reflexivity. Qed.

Example contains_svg : contains "svg" "image/svg+xml" = true.
Proof. reflexivity. Qed.

Example raster_table :
  raster example_platform "cat.png" = true /\
  raster example_platform "logo.svg" = false /\
  raster example_platform "notes.txt" = false.
Proof. repeat split. Qed.

Example array_index_keys :
  array_index "0" = Some 0%N /\ array_index "42" = Some 42%N /\
  array_index "042" = None /\ array_index "4294967295" = None /\
  array_index "4f2a" = None.
Proof. repeat split. Qed.

Example convert_command_cat :
  convert_command example_platform deploying_context "cat.png" 200 200 =
  "convert app/storage/project/live/media/thumbnail.png -auto-orient" +:+
  " -resize 200x200\> app/storage/project/live/media/thumbnail.png".
Proof. reflexivity. Qed.

(** ** The deployer of a context *)

Lemma getDeployer_reads context w :
  getDeployer context w = (Return (deployer_of context), w).
Proof.
  unfold getDeployer, deployer_of.
  destruct (getEnvironmentSettings _ _ _) as [settings|]; [|done].
  by destruct (truthy (alias settings)).
Qed.

Lemma no_deployer_configured_None context :
  no_deployer_configured context -> deployer_of context = None.
Proof.
  unfold no_deployer_configured, configured_alias, deployer_of.
  destruct (getEnvironmentSettings _ _ _) as [settings|]; [|done].
  by intros ->.
Qed.

Section Create.

Variable platform : Platform.

(** C6. For every context whose environment has no media deployer
    configured (no deployer settings, or settings without an alias),
    [create] fails with the error "No media deployer configured", whatever
    the data, the options and the state. *)
Theorem create_without_deployer_fails context data options w :
  no_deployer_configured context ->
  fst (create platform context data options w) =
  Throw (Error "No media deployer configured").
Proof.
  intros Hnone. apply no_deployer_configured_None in Hnone.
  unfold create, bind. rewrite getDeployer_reads, Hnone.
  reflexivity.
Qed.

(** C10. [create] looks for the deployer before any write: in a context
    with no deployer configured it throws before the resource-creation
    path is invoked, so the state after the call is the state before it:
    no record is persisted, no deployer call is made, nothing is written
    to local storage. *)
Theorem create_without_deployer_writes_nothing context data options w :
  no_deployer_configured context ->
  snd (create platform context data options w) = w /\
  database (snd (create platform context data options w)) = database w /\
  deployer_calls (snd (create platform context data options w)) =
    deployer_calls w.
Proof.
  intros Hnone. apply no_deployer_configured_None in Hnone.
  assert (snd (create platform context data options w) = w) as Hsame.
  { unfold create, bind. rewrite getDeployer_reads, Hnone. reflexivity. }
  rewrite Hsame. auto.
Qed.

End Create.

Lemma create_without_deployer_fails_witness :
  fst (create example_platform bare_context (mkData "cat.png" ∅)
         (mkCreateOptions (Some "cat.png") "Y2F0") empty_world) =
  Throw (Error "No media deployer configured").
Proof.
  apply (create_without_deployer_fails example_platform bare_context).
  reflexivity.
Defined.

Lemma create_without_deployer_writes_nothing_witness :
  snd (create example_platform bare_context (mkData "cat.png" ∅)
         (mkCreateOptions (Some "cat.png") "Y2F0") empty_world) =
  empty_world.
Proof.
  apply (create_without_deployer_writes_nothing example_platform bare_context
           (mkData "cat.png" ∅) (mkCreateOptions (Some "cat.png") "Y2F0")
           empty_world).
  reflexivity.
Defined.

(** ** Thumbnail generation *)

Section Thumbnail.

Variable platform : Platform.

Lemma generateThumbnail_not_raster context filename data width height w :
  raster platform filename = false ->
  generateThumbnail platform context (Some filename) data width height w =
  (Return None, w).
Proof.
  unfold raster, generateThumbnail, bind, checkParam, ret. simpl.
  intros Htype. apply andb_false_iff in Htype.
  destruct Htype as [-> | Hsvg]; [done|].
  apply negb_false_iff in Hsvg. rewrite Hsvg. by rewrite orb_true_r.
Qed.

Lemma raster_test filename :
  raster platform filename = true ->
  (negb (contains "image" (getMIMEType platform filename))
   || contains "svg" (getMIMEType platform filename)) = false.
Proof.
  unfold raster. intros [-> Hsvg]%andb_true_iff.
  apply negb_true_iff in Hsvg. by rewrite Hsvg.
Qed.

Lemma generateThumbnail_converted context filename data width height w scaled :
  raster platform filename = true ->
  convert platform (convert_command platform context filename width height) data
    = Some scaled ->
  generateThumbnail platform context (Some filename) data width height w =
  (Return (Some scaled),
   with_storage
     (filter (fun d => ~ tempFolder platform context `prefix_of` d)
        ({[tempFolder platform context]} ∪ directories w))
     (filter (fun kv => ~ tempFolder platform context `prefix_of` fst kv)
        (<[tempFile platform context filename := scaled]>
           (<[tempFile platform context filename := data]> (files w))))
     w).
Proof.
  intros Hraster Hconvert.
  unfold generateThumbnail, bind, checkParam, ret. simpl.
  rewrite (raster_test _ Hraster).
  fold (tempFolder platform context). fold (tempFile platform context filename).
  fold (convert_command platform context filename width height).
  unfold AppService_exec, FileService_read. simpl.
  rewrite lookup_insert_eq, Hconvert. simpl.
  rewrite lookup_insert_eq. reflexivity.
Qed.

Lemma generateThumbnail_convert_fails context filename data width height w :
  raster platform filename = true ->
  convert platform (convert_command platform context filename width height) data
    = None ->
  generateThumbnail platform context (Some filename) data width height w =
  (Throw (ProcessError
            (convert_command platform context filename width height)),
   with_storage ({[tempFolder platform context]} ∪ directories w)
     (<[tempFile platform context filename := data]> (files w)) w).
Proof.
  intros Hraster Hconvert.
  unfold generateThumbnail, bind, checkParam, ret. simpl.
  rewrite (raster_test _ Hraster).
  fold (tempFolder platform context). fold (tempFile platform context filename).
  fold (convert_command platform context filename width height).
  unfold AppService_exec. simpl.
  rewrite lookup_insert_eq, Hconvert. reflexivity.
Qed.

(** C9 (amended). For every [generateThumbnail] call on raster image
    content: when the call returns, it returns the converted bytes and the
    temporary folder written during generation has been removed; when the
    external conversion process fails, the call fails with that error and
    no cleanup takes place: the temporary folder and the source file
    written into it remain. *)
Theorem generateThumbnail_cleanup_on_return_only context filename data
    width height w :
  raster platform filename = true ->
  (forall thumbnail,
      fst (generateThumbnail platform context (Some filename) data width
             height w) = Return thumbnail ->
      convert platform (convert_command platform context filename width height)
        data = thumbnail /\
      temp_removed platform context
        (snd (generateThumbnail platform context (Some filename) data width
                height w))) /\
  (convert platform (convert_command platform context filename width height)
     data = None ->
   exists w',
     generateThumbnail platform context (Some filename) data width height w
       = (Throw (ProcessError
                   (convert_command platform context filename width height)),
          w') /\
     tempFolder platform context ∈ directories w' /\
     files w' !! tempFile platform context filename = Some data).
Proof.
  intros Hraster. split.
  - intros thumbnail.
    destruct (convert platform
                (convert_command platform context filename width height) data)
      as [scaled|] eqn:Hconvert.
    + rewrite (generateThumbnail_converted _ _ _ _ _ _ scaled Hraster Hconvert).
      simpl. intros [= <-]. split; [done|].
      intros p Hprefix. simpl. split.
      * rewrite elem_of_filter. tauto.
      * apply map_lookup_filter_None. right. intros content _. simpl. tauto.
    + rewrite (generateThumbnail_convert_fails _ _ _ _ _ _ Hraster Hconvert).
      discriminate.
  - intros Hconvert. eexists. split.
    + by apply generateThumbnail_convert_fails.
    + simpl. split; [set_solver|]. apply lookup_insert_eq.
Qed.

End Thumbnail.

Lemma generateThumbnail_cleanup_on_return_only_witness :
  temp_removed example_platform deploying_context
    (snd (generateThumbnail example_platform deploying_context
            (Some "cat.png") "cat" 200 200 empty_world)).
Proof.
  destruct (generateThumbnail_cleanup_on_return_only example_platform
              deploying_context "cat.png" "cat" 200 200 empty_world)
    as [Hreturn _].
  { reflexivity. }
  apply (Hreturn (Some "scaled:cat")). vm_compute. reflexivity.
Defined.

(** C9 (as stated, refuted).  Where [convert] is not installed, thumbnail
    generation for [cat.png] fails and leaves the temporary folder, with
    the source written into it, on local storage. *)
Lemma generateThumbnail_failure_leaves_temp_folder :
  exists e w',
    generateThumbnail no_convert_platform deploying_context (Some "cat.png")
      "cat" 200 200 empty_world = (Throw e, w') /\
    raster no_convert_platform "cat.png" = true /\
    ["app"; "storage"; "project"; "live"; "media"] ∈ directories w' /\
    files w' !! ["app"; "storage"; "project"; "live"; "media"; "thumbnail.png"]
      = Some "cat" /\
    ~ temp_removed no_convert_platform deploying_context w'.
Proof.
  eexists. eexists. split.
  { apply generateThumbnail_convert_fails; reflexivity. }
  split; [reflexivity|].
  assert (["app"; "storage"; "project"; "live"; "media"]
            ∈ directories
                (with_storage
                   ({[tempFolder no_convert_platform deploying_context]}
                    ∪ directories empty_world)
                   (<[tempFile no_convert_platform deploying_context "cat.png"
                      := "cat"]> (files empty_world)) empty_world)) as Hdir.
  { simpl. set_solver. }
  split; [exact Hdir|]. split.
  { simpl. apply lookup_insert_eq. }
  intros Hremoved.
  destruct (Hremoved ["app"; "storage"; "project"; "live"; "media"])
    as [Hnot _].
  { reflexivity. }
  exact (Hnot Hdir).
Qed.

(** ** Creation *)

Section Deploy.

Variable platform : Platform.

Lemma removeFolder_lookup (folder : Path) (store : gmap Path string)
    (p : Path) :
  folder `prefix_of` p ->
  filter (fun kv => ~ folder `prefix_of` fst kv) store !! p = None.
Proof.
  intros Hprefix. apply map_lookup_filter_None. right.
  intros content _. simpl. tauto.
Qed.

Lemma getPath_file deployer (id' : string) (filename : string) :
  getPath deployer [Some id'; Some filename] =
  getPath deployer [Some id'] ++ [filename].
Proof. unfold getPath. simpl. by rewrite <- app_assoc. Qed.

(** A call of [create] returns only if a deployer is configured, a file
    name was passed in the options and, for a raster image, the conversion
    succeeded. *)
Lemma create_returns context data options w resource w' :
  create platform context data options w = (Return resource, w') ->
  exists deployer filename,
    deployer_of context = Some deployer /\
    options_filename options = Some filename /\
    id resource = createId platform (database w) /\
    deployed w' =
    (let folder := getPath deployer [Some (id resource)] in
     let stored :=
       <[folder ++ [filename] := options_full options]>
         (filter (fun kv => ~ folder `prefix_of` fst kv) (deployed w)) in
     if raster platform filename then
       match convert platform
               (convert_command platform context filename 200 200)
               (base64_decode platform (options_full options)) with
       | Some thumbnail =>
           <[folder ++ ["thumbnail.jpg"] := base64_encode platform thumbnail]>
             stored
       | None => stored
       end
     else stored) /\
    (raster platform filename = true ->
     is_Some (convert platform
                (convert_command platform context filename 200 200)
                (base64_decode platform (options_full options)))).
Proof.
  unfold create. unfold bind at 1. rewrite getDeployer_reads.
  destruct (deployer_of context) as [deployer|] eqn:Hdeployer; [|done].
  destruct (options_filename options) as [filename|] eqn:Hname.
  2: { unfold bind, ResourceBase_create, removeFolder, setFile,
         generateThumbnail, checkParam, throw.
       simpl. discriminate. }
  intros Hreturn. exists deployer, filename.
  split; [done|]. split; [done|]. revert Hreturn.
  unfold bind, ResourceBase_create, removeFolder, setFile.
  rewrite !getPath_file. simpl.
  destruct (raster platform filename) eqn:Hraster.
  - destruct (convert platform
                (convert_command platform context filename 200 200)
                (base64_decode platform (options_full options)))
      as [thumbnail|] eqn:Hconvert.
    + rewrite (generateThumbnail_converted platform context filename _ 200 200
                 _ thumbnail Hraster Hconvert).
      simpl. intros [= <- <-]. simpl. split; [done|]. split; [done|]. eauto.
    + rewrite (generateThumbnail_convert_fails platform context filename _ 200
                 200 _ Hraster Hconvert).
      discriminate.
  - rewrite (generateThumbnail_not_raster platform context filename _ 200 200
               _ Hraster).
    simpl. intros [= <- <-]. simpl. split; [done|]. split; [done|].
    discriminate.
Qed.

(** C5 (amended). After every successful [create] call the resource's
    folder of the deployer holds the following.  When the file name passed
    in the options has an image type other than SVG: [thumbnail.jpg] with
    the generated thumbnail, the full file with the uploaded content
    provided its name is not the reserved [thumbnail.jpg], and nothing
    else.  When the file name has an SVG (or non-image) type: the full
    file with the uploaded content and nothing else, so no thumbnail. *)
Theorem create_deploys_file_and_thumbnail context data options w resource :
  fst (create platform context data options w) = Return resource ->
  exists deployer filename,
    deployer_of context = Some deployer /\
    options_filename options = Some filename /\
    let folder := getPath deployer [Some (id resource)] in
    let store := deployed (snd (create platform context data options w)) in
    if raster platform filename then
      (exists thumbnail,
          convert platform (convert_command platform context filename 200 200)
            (base64_decode platform (options_full options)) = Some thumbnail /\
          store !! (folder ++ ["thumbnail.jpg"])
            = Some (base64_encode platform thumbnail)) /\
      (filename <> "thumbnail.jpg" ->
       store !! (folder ++ [filename]) = Some (options_full options)) /\
      (forall p, folder `prefix_of` p -> is_Some (store !! p) ->
                 p = folder ++ [filename] \/ p = folder ++ ["thumbnail.jpg"])
    else
      store !! (folder ++ [filename]) = Some (options_full options) /\
      (forall p, folder `prefix_of` p -> is_Some (store !! p) ->
                 p = folder ++ [filename]).
Proof.
  destruct (create platform context data options w) as [result w'] eqn:Hcreate.
  simpl. intros ->.
  destruct (create_returns context data options w resource w' Hcreate)
    as (deployer & filename & Hdeployer & Hname & Hid & Hstore & Hconv).
  exists deployer, filename. split; [done|]. split; [done|].
  cbv zeta. rewrite Hstore. clear Hstore.
  set (folder := getPath deployer [Some (id resource)]).
  destruct (raster platform filename) eqn:Hraster.
  - destruct (Hconv eq_refl) as [thumbnail Hconvert]. rewrite Hconvert.
    split; [|split].
    + exists thumbnail. split; [done|]. apply lookup_insert_eq.
    + intros Hother. rewrite lookup_insert_ne.
      * apply lookup_insert_eq.
      * intros Hsame%app_inv_head. congruence.
    + intros p Hprefix [content Hp].
      destruct (decide (p = folder ++ ["thumbnail.jpg"])) as [->|Hne1]; [auto|].
      destruct (decide (p = folder ++ [filename])) as [->|Hne2]; [auto|].
      rewrite !lookup_insert_ne in Hp by done.
      by rewrite removeFolder_lookup in Hp.
  - split.
    + apply lookup_insert_eq.
    + intros p Hprefix [content Hp].
      destruct (decide (p = folder ++ [filename])) as [->|Hne]; [auto|].
      rewrite lookup_insert_ne in Hp by done.
      by rewrite removeFolder_lookup in Hp.
Qed.

End Deploy.

Lemma create_deploys_file_and_thumbnail_witness :
  deployed (snd (create example_platform deploying_context cat_data
                   cat_options empty_world))
    !! ["media"; "m0"; "cat.png"] = Some "cat" /\
  deployed (snd (create example_platform deploying_context cat_data
                   cat_options empty_world))
    !! ["media"; "m0"; "thumbnail.jpg"] = Some "scaled:cat".
Proof.
  destruct (create_deploys_file_and_thumbnail example_platform
              deploying_context cat_data cat_options empty_world cat_resource)
    as (deployer & filename & Hdeployer & Hname & Hfolder).
  { vm_compute. reflexivity. }
  injection Hdeployer as <-. injection Hname as <-.
  change (raster example_platform "cat.png") with true in Hfolder.
  destruct Hfolder as ((thumbnail & Hconvert & Hthumbnail) & Hfull & _).
  injection Hconvert as <-.
  split.
  - apply Hfull. discriminate.
  - exact Hthumbnail.
Defined.

(** C5 (as stated, refuted).  Creating a media resource from a JPEG that is
    itself named [thumbnail.jpg] succeeds, yet afterwards the resource's
    folder holds a single file: the thumbnail, written over the uploaded
    content, which is deployed nowhere. *)
Lemma create_thumbnail_jpg_overwrites_full_file :
  let result :=
    create example_platform deploying_context (mkData "thumbnail.jpg" ∅)
      (mkCreateOptions (Some "thumbnail.jpg") "photo") empty_world in
  raster example_platform "thumbnail.jpg" = true /\
  fst result =
    Return (mkMedia "m0" (Some "thumbnail.jpg") (Some deploying_context) ∅) /\
  map_to_list (deployed (snd result)) =
    [(["media"; "m0"; "thumbnail.jpg"], "scaled:photo")] /\
  ~ exists path, deployed (snd result) !! path = Some "photo".
Proof.
  cbv zeta.
  assert (map_to_list
            (deployed
               (snd (create example_platform deploying_context
                       (mkData "thumbnail.jpg" ∅)
                       (mkCreateOptions (Some "thumbnail.jpg") "photo")
                       empty_world))) =
          [(["media"; "m0"; "thumbnail.jpg"], "scaled:photo")]) as Hfiles.
  { vm_compute. reflexivity. }
  split; [reflexivity|]. split; [vm_compute; reflexivity|].
  split; [exact Hfiles|].
  intros [path Hpath]. apply elem_of_map_to_list in Hpath.
  rewrite Hfiles in Hpath. apply list_elem_of_singleton in Hpath.
  discriminate.
Qed.

(** ** Reading one resource back *)

Lemma associate_record context id' files resource :
  associate context id' files (Some resource) = Some resource.
Proof.
  induction files as [|file files IH]; simpl; [done|].
  by destruct (String.eqb (basename file) "thumbnail.jpg").
Qed.

Lemma associate_file context id' files :
  associate context id' files None =
  synthesized context id' <$> content_file files.
Proof.
  induction files as [|file files IH]; simpl; [done|].
  destruct (String.eqb (basename file) "thumbnail.jpg"); simpl; [done|].
  apply associate_record.
Qed.

Lemma get_reads context id' w :
  fst (get context id' w) =
  Return (associate context id' (folder_listing context id' w)
            (List.find (fun r => String.eqb (id r) id') (database w))).
Proof.
  unfold get, bind, folder_listing. rewrite getDeployer_reads.
  by destruct (deployer_of context).
Qed.

Lemma folder_listing_elem context id' w file :
  file ∈ folder_listing context id' w <->
  exists deployer,
    deployer_of context = Some deployer /\
    is_Some (deployed w !! file) /\
    below (getPath deployer [Some id']) 1 file.
Proof.
  unfold folder_listing.
  destruct (deployer_of context) as [deployer|]; split.
  - intros ([p content] & -> & Hin)%list_elem_of_fmap.
    apply elem_of_map_to_list, map_lookup_filter_Some in Hin as [Hp Hbelow].
    exists deployer. simpl in *. eauto.
  - intros (? & [= <-] & [content Hfile] & Hbelow).
    apply list_elem_of_fmap. exists (file, content). split; [done|].
    by apply elem_of_map_to_list, map_lookup_filter_Some.
  - by intros ?%elem_of_nil.
  - by intros (? & ? & _).
Qed.

Lemma content_file_Some files file :
  content_file files = Some file ->
  file ∈ files /\ basename file <> "thumbnail.jpg".
Proof.
  intros [Hin Hname]%List.find_some. split.
  - by apply list_elem_of_In.
  - apply negb_true_iff in Hname. by apply String.eqb_neq.
Qed.

Lemma content_file_None files file :
  content_file files = None -> file ∈ files ->
  basename file = "thumbnail.jpg".
Proof.
  intros Hnone Hin%list_elem_of_In.
  pose proof (List.find_none _ _ Hnone file Hin) as Hname.
  apply negb_false_iff in Hname. by apply String.eqb_eq.
Qed.

Lemma remove_database this w :
  database (snd (remove this w)) =
  List.filter (fun r => negb (String.eqb (id r) (id this))) (database w).
Proof.
  unfold remove, bind, ResourceBase_remove. simpl.
  destruct (context this) as [context|]; simpl; [|done].
  rewrite getDeployer_reads.
  by destruct (deployer_of context).
Qed.

Lemma find_removed (id' : string) (records : Datatypes.list Media) :
  List.find (fun r => String.eqb (id r) id')
    (List.filter (fun r => negb (String.eqb (id r) id')) records) = None.
Proof.
  induction records as [|r records IH]; simpl; [done|].
  destruct (String.eqb (id r) id') eqn:Hid; simpl; [done|].
  by rewrite Hid.
Qed.

(** C8. After [remove] has completed on a resource, a subsequent [get] for
    the same identifier (in any later state whose records are those
    [remove] left) returns a resource if and only if a deployed file other
    than the thumbnail exists in the folder of that identifier; the
    resource is then synthesized from such a file: it carries the
    identifier, the file's name and the context, and no metadata.
    Otherwise [get] returns null. *)
Theorem get_after_remove this w context w2 :
  fst (remove this w) = Return tt ->
  database w2 = database (snd (remove this w)) ->
  exists result,
    fst (get context (id this) w2) = Return result /\
    (is_Some result <-> content_deployed context (id this) w2) /\
    (forall resource, result = Some resource ->
       exists file,
         file ∈ folder_listing context (id this) w2 /\
         basename file <> "thumbnail.jpg" /\
         resource = synthesized context (id this) file).
Proof.
  intros _ Hrecords.
  eexists. split; [apply get_reads|].
  rewrite Hrecords, remove_database, find_removed, associate_file.
  destruct (content_file (folder_listing context (id this) w2))
    as [file|] eqn:Hfile; simpl.
  - apply content_file_Some in Hfile as [Hin Hname].
    split.
    + split; [|by eauto]. intros _.
      apply folder_listing_elem in Hin as (deployer & ? & ? & ?).
      by exists deployer, file.
    + intros resource [= <-]. by exists file.
  - split; [|done]. split; [by intros [? ?]|].
    intros (deployer & file & Hdeployer & Hstored & Hbelow & Hname).
    destruct Hname. apply (content_file_None _ _ Hfile).
    apply folder_listing_elem. eauto.
Qed.

(** ** Listing: the object used as a map *)

Lemma lookup_assign m k v k' :
  lookup_key (assign m k v) k' =
  if String.eqb k k' then Some v else lookup_key m k'.
Proof.
  induction m as [|[k0 v0] m IH]; simpl.
  - done.
  - destruct (String.eqb_spec k0 k) as [->|Hne]; simpl.
    + by destruct (String.eqb k k').
    + rewrite IH.
      destruct (String.eqb_spec k0 k') as [->|Hne'];
        destruct (String.eqb_spec k k') as [->|Hne'']; congruence.
Qed.

Lemma assign_keys_old m k v : k ∈ m.*1 -> (assign m k v).*1 = m.*1.
Proof.
  induction m as [|[k0 v0] m IH]; simpl.
  - by intros ?%elem_of_nil.
  - intros Hin. destruct (String.eqb_spec k0 k) as [->|Hne]; simpl; [done|].
    apply elem_of_cons in Hin as [?|Hin]; [congruence|]. f_equal. by apply IH.
Qed.

Lemma assign_keys_new m k v : k ∉ m.*1 -> (assign m k v).*1 = m.*1 ++ [k].
Proof.
  induction m as [|[k0 v0] m IH]; simpl; [done|].
  intros Hout. apply not_elem_of_cons in Hout as [Hne Hout].
  destruct (String.eqb_spec k0 k) as [->|_]; simpl; [done|].
  f_equal. by apply IH.
Qed.

Lemma assign_NoDup m k v : NoDup m.*1 -> NoDup (assign m k v).*1.
Proof.
  intros Hm. destruct (decide (k ∈ m.*1)) as [Hin|Hout].
  - by rewrite assign_keys_old.
  - rewrite assign_keys_new by done.
    apply NoDup_app. split; [done|]. split; [|apply NoDup_singleton].
    intros k' Hk' ->%list_elem_of_singleton. done.
Qed.

Lemma elem_lookup_key m k v :
  NoDup m.*1 -> (k, v) ∈ m -> lookup_key m k = Some v.
Proof.
  induction m as [|[k0 v0] m IH]; simpl.
  - by intros _ ?%elem_of_nil.
  - intros [Hk0 Hm]%NoDup_cons [[= -> ->]|Hin]%elem_of_cons.
    + by rewrite String.eqb_refl.
    + destruct (String.eqb_spec k0 k) as [->|Hne]; [|auto].
      destruct Hk0. apply list_elem_of_fmap. by exists (k, v).
Qed.

Lemma lookup_key_is_Some m k : is_Some (lookup_key m k) <-> k ∈ m.*1.
Proof.
  induction m as [|[k0 v0] m IH]; simpl.
  - split; [by intros [? ?]|by intros ?%elem_of_nil].
  - rewrite elem_of_cons.
    destruct (String.eqb_spec k0 k) as [->|Hne].
    + split; eauto.
    + rewrite IH. split; [auto|]. intros [?|?]; [congruence|done].
Qed.

(** [Object.values] lists every value once. *)
Lemma insert_index_Permutation n v l : insert_index n v l ≡ₚ (n, v) :: l.
Proof.
  induction l as [|[n' v'] l IH]; simpl; [done|].
  destruct (n <=? n')%N; [done|].
  rewrite IH. apply Permutation_swap.
Qed.

Lemma Object_values_Permutation m : Object_values m ≡ₚ m.*2.
Proof.
  unfold Object_values.
  induction m as [|[k v] m IH]; simpl; [done|].
  destruct (array_index k) as [n|].
  - rewrite insert_index_Permutation. simpl. by rewrite IH.
  - rewrite <- Permutation_middle. by rewrite IH.
Qed.

(** ** Listing: the sort *)

Section Sort.

Variable platform : Platform.

Lemma compare_units_refl (a : Name) : compare_units a a = Eq.
Proof.
  induction a as [|x a IH]; [done|]. simpl. by rewrite N.compare_refl.
Qed.

Lemma compare_units_eq (a b : Name) : compare_units a b = Eq -> a = b.
Proof.
  revert b. induction a as [|x a IH]; intros [|y b]; simpl; try done.
  destruct (N.compare_spec x y) as [->| |]; try done.
  by intros ->%IH.
Qed.

Lemma compare_units_antisym (a b : Name) :
  compare_units b a = CompOpp (compare_units a b).
Proof.
  revert b. induction a as [|x a IH]; intros [|y b]; simpl; try done.
  rewrite (N.compare_antisym x y).
  destruct (N.compare x y); simpl; [apply IH|done..].
Qed.

Lemma compare_units_lt_trans (a b c : Name) :
  compare_units a b = Lt -> compare_units b c = Lt -> compare_units a c = Lt.
Proof.
  revert b c. induction a as [|x a IH]; intros [|y b] [|z c]; simpl; try done.
  destruct (N.compare_spec x y) as [->|Hxy|]; [| |done].
  - destruct (N.compare_spec y z); [apply IH|done..].
  - intros _. destruct (N.compare_spec y z) as [->|Hyz|]; [| |done]; intros _.
    + by apply N.compare_lt_iff in Hxy as ->.
    + assert (x < z)%N as ->%N.compare_lt_iff by lia. done.
Qed.

Lemma String_lt_false (a b : Name) :
  String_lt b a = false <-> compare_units a b <> Gt.
Proof.
  unfold String_lt. rewrite (compare_units_antisym a b).
  by destruct (compare_units a b).
Qed.

Lemma name_le_trans : Transitive (name_le platform).
Proof.
  intros a b c. unfold name_le. rewrite !String_lt_false.
  destruct (compare_units (getName platform a) (getName platform b))
    eqn:Hab; [| |done];
    destruct (compare_units (getName platform b) (getName platform c))
      eqn:Hbc; try done; intros _ _.
  - apply compare_units_eq in Hab as ->. by rewrite Hbc.
  - apply compare_units_eq in Hab as ->. by rewrite Hbc.
  - apply compare_units_eq in Hbc as <-. by rewrite Hab.
  - by rewrite (compare_units_lt_trans _ _ _ Hab Hbc).
Qed.

(** The comparator orders by [name_le]; names that are equal compare
    equal. *)
Lemma compareNames_le a b :
  compareNames platform a b <> Gt <-> name_le platform a b.
Proof.
  unfold compareNames, name_le. rewrite String_lt_false.
  unfold String_eq, String_lt.
  by destruct (compare_units _ _).
Qed.

Lemma compareNames_Gt a b :
  compareNames platform a b = Gt -> name_le platform b a.
Proof.
  unfold compareNames, name_le, String_eq, String_lt.
  by destruct (compare_units _ _).
Qed.

Lemma sort_insert_Permutation x l :
  sort_insert (compareNames platform) x l ≡ₚ x :: l.
Proof.
  induction l as [|y l IH]; simpl; [done|].
  destruct (compareNames platform x y); try done.
  rewrite IH. apply Permutation_swap.
Qed.

Lemma sort_Permutation l : sort (compareNames platform) l ≡ₚ l.
Proof.
  unfold sort. induction l as [|x l IH]; simpl; [done|].
  by rewrite sort_insert_Permutation, IH.
Qed.

Lemma sort_insert_Sorted x l :
  Sorted (name_le platform) l ->
  Sorted (name_le platform) (sort_insert (compareNames platform) x l).
Proof.
  induction l as [|y l IH]; simpl; intros Hsorted.
  - by repeat constructor.
  - destruct (compareNames platform x y) eqn:Hcmp.
    + constructor; [done|]. constructor. apply compareNames_le. congruence.
    + constructor; [done|]. constructor. apply compareNames_le. congruence.
    + apply Sorted_inv in Hsorted as [Hl Hhd].
      constructor; [auto|].
      destruct l as [|z l]; simpl.
      * constructor. by apply compareNames_Gt.
      * destruct (compareNames platform x z); constructor;
          try (by apply compareNames_Gt); by inversion Hhd.
Qed.

Lemma sort_Sorted l :
  Sorted (name_le platform) (sort (compareNames platform) l).
Proof.
  unfold sort. induction l as [|x l IH]; simpl; [constructor|].
  by apply sort_insert_Sorted.
Qed.

End Sort.

(** ** Listing: reconciling files and records *)

Section Reconcile.

Variable platform : Platform.
Variable context : Context.
Variable resources : Datatypes.list Media.

Lemma inherited_proto (k : string) : inherited k = false -> k <> "__proto__".
Proof. by intros Hk ->. Qed.

Lemma mapResources_snoc rs r :
  mapResources (rs ++ [r]) =
  if String.eqb (id r) "__proto__" then mapResources rs
  else assign (mapResources rs) (id r) r.
Proof. unfold mapResources. by rewrite foldl_snoc. Qed.

Lemma mapResources_spec (rs : Datatypes.list Media) :
  NoDup (mapResources rs).*1 /\
  (forall k v,
      lookup_key (mapResources rs) k = Some v -> v ∈ rs /\ id v = k) /\
  (forall k, is_Some (lookup_key (mapResources rs) k) <->
             exists r, r ∈ rs /\ id r = k /\ k <> "__proto__").
Proof.
  induction rs as [|r rs (Hnodup & Hvalues & Hkeys)] using rev_ind.
  - split; [constructor|]. split; [done|].
    intros k. split; [by intros [? ?]|].
    by intros (r & ?%elem_of_nil & _).
  - rewrite mapResources_snoc.
    destruct (String.eqb_spec (id r) "__proto__") as [Hproto|Hproto].
    { (* the prototype is set, no property is added *)
      split; [done|]. split.
      - intros k v [Hin Hid]%Hvalues. split; [|done]. apply elem_of_app. auto.
      - intros k. rewrite Hkeys. split.
        + intros (r' & Hin & Hid & Hk). exists r'. split; [|done].
          apply elem_of_app. auto.
        + intros (r' & [Hin| ->%list_elem_of_singleton]%elem_of_app & Hid
                  & Hk); [by exists r'|congruence]. }
    split; [by apply assign_NoDup|]. split.
    + intros k v. rewrite lookup_assign.
      destruct (String.eqb_spec (id r) k) as [<-|Hne].
      * intros [= <-]. split; [|done]. apply elem_of_app. right.
        by apply list_elem_of_singleton.
      * intros [Hin Hid]%Hvalues. split; [|done]. apply elem_of_app. auto.
    + intros k. rewrite lookup_assign.
      destruct (String.eqb_spec (id r) k) as [<-|Hne].
      * split; [|by eauto]. intros _. exists r. split; [|done].
        apply elem_of_app. right. by apply list_elem_of_singleton.
      * rewrite Hkeys. split.
        -- intros (r' & Hin & Hid). exists r'. split; [|done].
           apply elem_of_app. auto.
        -- intros (r' & [Hin| ->%list_elem_of_singleton]%elem_of_app & Hid
                   & Hk); [by exists r'|done].
Qed.

Lemma reconciled_start :
  reconciled context resources [] (mapResources resources).
Proof.
  destruct (mapResources_spec resources) as (Hnodup & Hvalues & Hkeys).
  split; [done|]. split.
  - intros k v [Hin Hid]%Hvalues. split; [done|]. left. split; [done|].
    by intros file ?%elem_of_nil.
  - intros k. rewrite Hkeys. split; [auto|].
    intros [?|(file & ?%elem_of_nil & _)]; done.
Qed.

Lemma from_record_snoc files file k v :
  from_record resources files k v -> (is_content file -> file_id file <> k) ->
  from_record resources (files ++ [file]) k v.
Proof.
  intros [Hin Hfiles] Hfile. split; [done|].
  intros f [?| ->%list_elem_of_singleton]%elem_of_app; auto.
Qed.

Lemma from_file_snoc files file k v :
  from_file context resources files k v ->
  from_file context resources (files ++ [file]) k v.
Proof.
  intros ((f & Hin & Hf) & Hrest). split; [|done].
  exists f. split; [|done]. apply elem_of_app. auto.
Qed.

(** A file that makes no property: the thumbnail, or a content file in a
    folder named like an inherited member for which there is no record. *)
Lemma reconciled_skip files file m :
  reconciled context resources files m ->
  (is_content file ->
   lookup_key m (file_id file) = None /\ inherited (file_id file) = true) ->
  reconciled context resources (files ++ [file]) m.
Proof.
  intros (Hnodup & Hvalues & Hkeys) Hskip.
  split; [done|]. split.
  - intros k v Hkv.
    destruct (Hvalues _ _ Hkv) as [Hid [Hrec|Hfile]]; (split; [done|]).
    + left. apply from_record_snoc; [done|].
      intros [Hnone _]%Hskip Heq. rewrite Heq in Hnone. congruence.
    + right. by apply from_file_snoc.
  - intros k. rewrite Hkeys. split.
    + intros [?|(f & Hin & Hf)]; [auto|]. right. exists f.
      split; [|done]. apply elem_of_app. auto.
    + intros [?|(f & [Hin| ->%list_elem_of_singleton]%elem_of_app & Hf)];
        [auto| |].
      * right. by exists f.
      * destruct Hf as (Hcontent & <- & Hown).
        destruct (Hskip Hcontent) as [_ Hinherited]. congruence.
Qed.

(** A content file that sets the property of its folder to [v]. *)
Lemma reconciled_assign files file m v :
  reconciled context resources files m ->
  is_content file ->
  is_Some (lookup_key m (file_id file)) \/ inherited (file_id file) = false ->
  id v = file_id file ->
  from_file context resources (files ++ [file]) (file_id file) v ->
  reconciled context resources (files ++ [file])
    (assign m (file_id file) v).
Proof.
  intros (Hnodup & Hvalues & Hkeys) Hcontent Hown Hid Hfrom.
  assert (file ∈ files ++ [file]) as Hlast.
  { apply elem_of_app. right. by apply list_elem_of_singleton. }
  split; [by apply assign_NoDup|]. split.
  - intros k v'. rewrite lookup_assign.
    destruct (String.eqb_spec (file_id file) k) as [<-|Hne].
    + intros [= <-]. split; [done|]. by right.
    + intros [Hid' [Hrec|Hfile]]%Hvalues; (split; [done|]).
      * left. by apply from_record_snoc.
      * right. by apply from_file_snoc.
  - intros k. rewrite lookup_assign.
    destruct (String.eqb_spec (file_id file) k) as [<-|Hne].
    + split; [|by eauto]. intros _.
      destruct Hown as [Hsome|Hown].
      * apply Hkeys in Hsome as [?|(f & Hin & Hf)]; [auto|].
        right. exists f. split; [|done]. apply elem_of_app. auto.
      * right. by exists file.
    + rewrite Hkeys. split.
      * intros [?|(f & Hin & Hf)]; [auto|]. right. exists f.
        split; [|done]. apply elem_of_app. auto.
      * intros [?|(f & [Hin| ->%list_elem_of_singleton]%elem_of_app & Hf)];
          [auto| |].
        -- right. by exists f.
        -- by destruct Hf as (_ & ? & _).
Qed.

Lemma reconciled_step files file m :
  reconciled context resources files m ->
  reconciled context resources (files ++ [file]) (associateFile context m file).
Proof.
  intros Hm. pose proof Hm as (Hnodup & Hvalues & Hkeys).
  unfold associateFile. fold (file_id file).
  assert (file ∈ files ++ [file]) as Hlast.
  { apply elem_of_app. right. by apply list_elem_of_singleton. }
  destruct (String.eqb_spec (basename file) "thumbnail.jpg") as [Hthumb|Hname].
  { apply reconciled_skip; [done|]. by intros []. }
  destruct (lookup_key m (file_id file)) as [r|] eqn:Hold.
  - (* the folder of a property the map has *)
    destruct (Hvalues _ _ Hold) as [Hid Hfrom].
    apply reconciled_assign; [done|done|by left; eexists|done|].
    split; [by exists file|]. split; [done|]. simpl.
    destruct Hfrom as [[Hin _]|(_ & _ & Hmeta)]; [|done].
    left. by exists r.
  - destruct (inherited (file_id file)) eqn:Hinherited.
    + (* the folder is named like an inherited member *)
      by apply reconciled_skip.
    + (* a new property *)
      apply reconciled_assign; [done|done|by right|done|].
      split; [by exists file|]. split; [done|]. right. split; [|done].
      intros r Hin Hid.
      assert (is_Some (lookup_key m (file_id file))) as [? ?];
        [|congruence].
      apply Hkeys. left. exists r. split; [done|]. split; [done|].
      by apply inherited_proto.
Qed.

Lemma reconciled_files files :
  reconciled context resources files
    (foldl (associateFile context) (mapResources resources) files).
Proof.
  induction files as [|file files IH] using rev_ind.
  - apply reconciled_start.
  - rewrite foldl_snoc. by apply reconciled_step.
Qed.

(** The list [reconcile] returns, against the two sources it was given. *)
Lemma reconcile_union files :
  let entries := reconcile platform context files resources in
  NoDup (id <$> entries) /\
  (forall k, k ∈ id <$> entries <->
     (exists r, r ∈ resources /\ id r = k /\ k <> "__proto__") \/
     (exists file, file ∈ files /\ is_content file /\ file_id file = k /\
                   inherited k = false)) /\
  (forall entry, entry ∈ entries ->
     (forall r, r ∈ resources -> id r <> id entry) ->
     exists file, file ∈ files /\ is_content file /\
       entry = synthesized context (file_id file) file) /\
  (forall entry, entry ∈ entries ->
     (forall file, file ∈ files -> is_content file ->
                   file_id file <> id entry) ->
     entry ∈ resources) /\
  StronglySorted (name_le platform) entries.
Proof.
  cbv zeta. unfold reconcile.
  set (m := foldl (associateFile context) (mapResources resources) files).
  destruct (reconciled_files files) as (Hnodup & Hvalues & Hkeys).
  fold m in Hnodup, Hvalues, Hkeys.
  assert (sort (compareNames platform) (Object_values m) ≡ₚ m.*2) as Hperm.
  { by rewrite sort_Permutation, Object_values_Permutation. }
  assert (id <$> m.*2 = m.*1) as Hids.
  { rewrite <- list_fmap_compose. apply list_fmap_ext.
    intros i [k v] Hkv. simpl.
    apply (Hvalues k v), elem_lookup_key; [done|].
    by apply list_elem_of_lookup_2 in Hkv. }
  assert (forall entry,
            entry ∈ sort (compareNames platform) (Object_values m) ->
            lookup_key m (id entry) = Some entry) as Hentry.
  { intros entry Hin. rewrite Hperm in Hin.
    apply list_elem_of_fmap in Hin as ([k v] & -> & Hkv). simpl.
    apply elem_lookup_key in Hkv; [|done].
    by destruct (Hvalues _ _ Hkv) as [-> _]. }
  split; [by rewrite Hperm, Hids|]. split; [|split; [|split]].
  - intros k. rewrite Hperm, Hids, <- lookup_key_is_Some. apply Hkeys.
  - intros entry Hin Hnew. apply Hentry in Hin.
    destruct (Hvalues _ _ Hin) as [_ [[Hrec _]|Hfile]].
    { by destruct (Hnew entry). }
    destruct Hfile as ((file & Hfile & Hcontent & Hid & Hname) & Hctx & Hmeta).
    exists file. split; [done|]. split; [done|].
    destruct Hmeta as [(r & Hr & Hrid & _)|[_ Hmeta]].
    { by destruct (Hnew r). }
    destruct entry. simpl in *. by subst.
  - intros entry Hin Hnofile. apply Hentry in Hin.
    destruct (Hvalues _ _ Hin) as [_ [[Hrec _]|Hfile]]; [done|].
    destruct Hfile as ((file & Hfile & Hcontent & Hid & _) & _).
    by destruct (Hnofile file).
  - apply @Sorted_StronglySorted; [apply name_le_trans|apply sort_Sorted].
Qed.

End Reconcile.

(** ** Listing: [Media.list] *)

Lemma list_reads platform context w :
  fst (Media.list platform context w) =
  Return (reconcile platform context (root_listing context w) (database w)).
Proof.
  unfold Media.list, bind, root_listing. rewrite getDeployer_reads.
  by destruct (deployer_of context).
Qed.

(** C7 (amended). For every combination of deployed files and database
    records in which no record and no folder is named [__proto__],
    [Media.list] returns exactly one entry per identifier in the union of
    the identifiers of the database records and of the folders that hold
    a deployed file other than [thumbnail.jpg] and are not named like a
    member of [Object.prototype]: an identifier with such a file and no
    database record yields a resource synthesized from a file
    (identifier, file name and context, no metadata), a database record
    with no such file is included as it is; and the result is sorted by
    display name in the order of [<] on strings (case-sensitive, code
    unit by code unit), equal names comparing equal. *)
Theorem list_reconciles_sources platform context w :
  no_prototype_key context w ->
  exists entries,
    fst (Media.list platform context w) = Return entries /\
    NoDup (id <$> entries) /\
    (forall k, k ∈ id <$> entries <->
       (exists r, r ∈ database w /\ id r = k) \/
       (exists file, file ∈ root_listing context w /\ is_content file /\
                     file_id file = k /\ inherited k = false)) /\
    (forall entry, entry ∈ entries ->
       (forall r, r ∈ database w -> id r <> id entry) ->
       exists file, file ∈ root_listing context w /\ is_content file /\
         entry = synthesized context (file_id file) file) /\
    (forall entry, entry ∈ entries ->
       (forall file, file ∈ root_listing context w -> is_content file ->
                     file_id file <> id entry) ->
       entry ∈ database w) /\
    StronglySorted (name_le platform) entries.
Proof.
  intros [Hrecords _].
  exists (reconcile platform context (root_listing context w) (database w)).
  split; [apply list_reads|].
  destruct (reconcile_union platform context (database w)
              (root_listing context w))
    as (Hnodup & Hkeys & Hnew & Hold & Hsorted).
  split; [done|]. split; [|done].
  intros k. rewrite Hkeys. split.
  - intros [(r & Hin & Hid & _)|Hfile]; [left; by exists r|by right].
  - intros [(r & Hin & Hid)|Hfile]; [left|by right].
    exists r. split; [done|]. split; [done|].
    rewrite Forall_forall in Hrecords. rewrite <- Hid. by apply Hrecords.
Qed.

Lemma list_reconciles_sources_witness :
  exists entries,
    fst (Media.list example_platform deploying_context
           (mkWorld
              [mkMedia "q" (Some "k.png") None ∅;
               mkMedia "abc" (Some "old.png") None {["author" := "ann"]}]
              {[ ["media"; "abc"; "x.png"] := "x";
                 ["media"; "7"; "b.png"] := "b";
                 ["media"; "constructor"; "c.png"] := "c" ]} ∅ ∅ []))
      = Return entries /\
    id <$> entries = ["7"; "q"; "abc"] /\
    StronglySorted (name_le example_platform) entries.
Proof.
  destruct (list_reconciles_sources example_platform deploying_context
              (mkWorld
                 [mkMedia "q" (Some "k.png") None ∅;
                  mkMedia "abc" (Some "old.png") None {["author" := "ann"]}]
                 {[ ["media"; "abc"; "x.png"] := "x";
                    ["media"; "7"; "b.png"] := "b";
                    ["media"; "constructor"; "c.png"] := "c" ]} ∅ ∅ []))
    as (entries & Hlist & _ & _ & _ & _ & Hsorted).
  - split.
    + repeat constructor; discriminate.
    + vm_compute. repeat constructor; discriminate.
  - exists entries. split; [exact Hlist|]. split; [|exact Hsorted].
    vm_compute in Hlist. injection Hlist as <-. reflexivity.
Defined.

(** C7 (as stated, refuted).  A deployed file with no database record does
    not always yield an entry: where the only deployed file is the
    [thumbnail.jpg] of [abc] and there is no record, the list is empty. *)
Lemma list_skips_thumbnail_only_folder :
  deployed thumbnail_only_world !! ["media"; "abc"; "thumbnail.jpg"]
    = Some "scaled" /\
  root_listing deploying_context thumbnail_only_world
    = [["media"; "abc"; "thumbnail.jpg"]] /\
  database thumbnail_only_world = [] /\
  fst (Media.list example_platform deploying_context thumbnail_only_world)
    = Return [].
Proof.
  split; [|split; [|split]].
  - reflexivity.
  - vm_compute. reflexivity.
  - reflexivity.
  - rewrite list_reads.
    assert (root_listing deploying_context thumbnail_only_world
            = [["media"; "abc"; "thumbnail.jpg"]]) as ->.
    { vm_compute. reflexivity. }
    reflexivity.
Qed.

(** Records [q] and [abc], files for [abc], [7], [10] and [zz]: one
    entry each, [abc] keeps its metadata and takes the file's name, the
    array-index keys come first among equal names. *)
Example reconcile_example :
  reconcile example_platform deploying_context
    [["media"; "abc"; "x.png"]; ["media"; "10"; "b.png"];
     ["media"; "7"; "b.png"]; ["media"; "zz"; "b.png"];
     ["media"; "zz"; "thumbnail.jpg"]]
    [mkMedia "q" (Some "k.png") None ∅;
     mkMedia "abc" (Some "old.png") None {["author" := "ann"]}] =
  [mkMedia "7" (Some "b.png") (Some deploying_context) ∅;
   mkMedia "10" (Some "b.png") (Some deploying_context) ∅;
   mkMedia "zz" (Some "b.png") (Some deploying_context) ∅;
   mkMedia "q" (Some "k.png") None ∅;
   mkMedia "abc" (Some "x.png") (Some deploying_context)
     {["author" := "ann"]}].
Proof. vm_compute. reflexivity. Qed.

(** ** Removing and reading back *)

Lemma get_after_remove_witness :
  exists result,
    fst (get deploying_context "m0"
           (snd (remove cat_resource
                   (snd (create example_platform deploying_context cat_data
                           cat_options empty_world)))))
      = Return result /\
    (is_Some result <->
     content_deployed deploying_context "m0"
       (snd (remove cat_resource
               (snd (create example_platform deploying_context cat_data
                       cat_options empty_world))))).
Proof.
  destruct (get_after_remove cat_resource
              (snd (create example_platform deploying_context cat_data
                      cat_options empty_world))
              deploying_context
              (snd (remove cat_resource
                      (snd (create example_platform deploying_context cat_data
                              cat_options empty_world)))))
    as (result & Hget & Hiff & _).
  - vm_compute. reflexivity.
  - reflexivity.
  - exists result. split; [exact Hget | exact Hiff].
Defined.

(** With this deployer, which really empties the folder, [get] right after
    [remove] finds nothing. *)
Lemma get_right_after_remove this context w :
  Media.context this = Some context ->
  fst (get context (id this) (snd (remove this w))) = Return None.
Proof.
  intros Hcontext.
  rewrite get_reads, remove_database, find_removed, associate_file.
  unfold folder_listing, remove, bind, checkParam. rewrite Hcontext. simpl.
  rewrite getDeployer_reads.
  destruct (deployer_of context) as [deployer|]; [|done].
  simpl.
  replace (filter _ (filter _ (deployed w))) with (∅ : gmap Path string);
    [done|].
  symmetry. apply map_eq. intros path. rewrite lookup_empty.
  apply map_lookup_filter_None. right.
  intros content [_ Hkept]%map_lookup_filter_Some [Hprefix _].
  simpl in *. done.
Qed.

End MediaFacts.

(** * Part 6: properties of the remaining Media operations *)

Module MediaMoreFacts.

Import Media MediaSpec MediaMore MediaMoreSpec MediaFacts.

(** ** Relating the state before and after *)

Lemma preserves_ret {A} (R : World -> World -> Prop) (a : A) :
  Reflexive R -> preserves R (ret a).
Proof. intros Hrefl w. apply Hrefl. Qed.

Lemma preserves_throw {A} (R : World -> World -> Prop) e :
  Reflexive R -> preserves R (throw (A := A) e).
Proof. intros Hrefl w. apply Hrefl. Qed.

Lemma preserves_bind {A B} (R : World -> World -> Prop) (m : M A)
    (k : A -> M B) :
  Transitive R ->
  preserves R m -> (forall a, preserves R (k a)) -> preserves R (bind m k).
Proof.
  intros Htrans Hm Hk w. unfold bind. specialize (Hm w).
  destruct (m w) as [[a| |] w']; simpl in *; try done.
  apply (Htrans _ w'); [exact Hm|apply Hk].
Qed.

Lemma preserves_at {A} (R : World -> World -> Prop) (m : M A) w :
  preserves R m -> R w (snd (m w)).
Proof. intros Hm. apply Hm. Qed.

Lemma preserves_checkParam {A} (R : World -> World -> Prop)
    (value : option A) name :
  Reflexive R -> preserves R (checkParam value name).
Proof. intros Hrefl. destruct value; intros w; apply Hrefl. Qed.

Lemma deployed_outside_refl folder : Reflexive (deployed_outside folder).
Proof. by intros w p _. Qed.

Lemma deployed_outside_trans folder : Transitive (deployed_outside folder).
Proof. intros w1 w2 w3 H12 H23 p Hp. by rewrite H23, H12. Qed.

Lemma deployed_except_refl path : Reflexive (deployed_except path).
Proof. by intros w p _. Qed.

Lemma deployed_except_trans path : Transitive (deployed_except path).
Proof. intros w1 w2 w3 H12 H23 p Hp. by rewrite H23, H12. Qed.

Lemma storage_outside_refl folder : Reflexive (storage_outside folder).
Proof. by intros w. Qed.

Lemma storage_outside_trans folder : Transitive (storage_outside folder).
Proof.
  intros w1 w2 w3 (Hd1 & Hf1 & Hc1 & Hs1) (Hd2 & Hf2 & Hc2 & Hs2).
  repeat split; try congruence.
  - destruct (Hs1 p H), (Hs2 p H). congruence.
  - destruct (Hs1 p H) as [_ ?], (Hs2 p H) as [_ ?]. tauto.
  - destruct (Hs1 p H) as [_ ?], (Hs2 p H) as [_ ?]. tauto.
Qed.

(** ** The deployer and the file service, step by step *)

Lemma prefix_of_snoc (folder : Path) (name : string) :
  folder `prefix_of` folder ++ [name].
Proof. by apply prefix_app_r. Qed.

Lemma getPath_folder deployer (id' : string) :
  getPath deployer [Some id'; None] = getPath deployer [Some id'].
Proof. done. Qed.

Lemma getPath_in_folder deployer (id' : string) (segment : option string) :
  getPath deployer [Some id'] `prefix_of` getPath deployer [Some id'; segment].
Proof.
  destruct segment as [name|].
  - rewrite getPath_file. apply prefix_of_snoc.
  - by rewrite getPath_folder.
Qed.

Lemma lookup_outside_folder {V} (folder p : Path) (store : gmap Path V) :
  ~ folder `prefix_of` p ->
  filter (fun kv => ~ folder `prefix_of` fst kv) store !! p = store !! p.
Proof.
  intros Hp. destruct (store !! p) as [v|] eqn:Hv.
  - by apply map_lookup_filter_Some_2.
  - apply map_lookup_filter_None_2. by left.
Qed.

Lemma elem_outside_folder (folder p : Path) (dirs : gset Path) :
  ~ folder `prefix_of` p ->
  p ∈ filter (fun d => ~ folder `prefix_of` d) dirs <-> p ∈ dirs.
Proof. intros Hp. rewrite elem_of_filter. tauto. Qed.

Lemma setFile_outside folder deployer path content :
  folder `prefix_of` path ->
  preserves (deployed_outside folder) (setFile deployer path content).
Proof.
  intros Hpath w p Hp. simpl. apply lookup_insert_ne. by intros <-.
Qed.

Lemma removeFile_outside folder deployer path :
  folder `prefix_of` path ->
  preserves (deployed_outside folder) (removeFile deployer path).
Proof.
  intros Hpath w p Hp. simpl. apply lookup_delete_ne. by intros <-.
Qed.

Lemma removeFolder_outside folder deployer path :
  folder `prefix_of` path ->
  preserves (deployed_outside folder) (removeFolder deployer path).
Proof.
  intros Hpath w p Hp. simpl. apply lookup_outside_folder.
  intros Hprefix. apply Hp. by etrans.
Qed.

Lemma setFile_except deployer path content :
  preserves (deployed_except path) (setFile deployer path content).
Proof. intros w p Hp. simpl. by apply lookup_insert_ne. Qed.

Lemma removeFile_except deployer path :
  preserves (deployed_except path) (removeFile deployer path).
Proof. intros w p Hp. simpl. by apply lookup_delete_ne. Qed.

Lemma deployed_outside_same folder w w' :
  deployed w' = deployed w -> deployed_outside folder w w'.
Proof. by intros Heq p _; rewrite Heq. Qed.

Lemma deployed_except_same path w w' :
  deployed w' = deployed w -> deployed_except path w w'.
Proof. by intros Heq p _; rewrite Heq. Qed.

Section Storage.

Variable platform : Platform.

Lemma makeDirectory_storage folder :
  preserves (storage_outside folder) (FileService_makeDirectory folder).
Proof.
  intros w. repeat split; try done; simpl.
  - intros [->%elem_of_singleton|]%elem_of_union; done.
  - intros. apply elem_of_union. by right.
Qed.

Lemma write_storage folder data file :
  folder `prefix_of` file ->
  preserves (storage_outside folder) (FileService_write data file).
Proof.
  intros Hfile w. repeat split; try done; simpl.
  apply lookup_insert_ne. by intros <-.
Qed.

Lemma exec_storage folder cmd file :
  folder `prefix_of` file ->
  preserves (storage_outside folder) (AppService_exec platform cmd file).
Proof.
  intros Hfile w. unfold AppService_exec.
  destruct (files w !! file) as [source|]; [|done].
  destruct (convert platform cmd source) as [scaled|]; [|done].
  repeat split; try done; simpl.
  apply lookup_insert_ne. by intros <-.
Qed.

Lemma read_storage folder file :
  preserves (storage_outside folder) (FileService_read file).
Proof.
  intros w. unfold FileService_read. by destruct (files w !! file).
Qed.

Lemma remove_storage folder :
  preserves (storage_outside folder) (FileService_remove folder).
Proof.
  intros w. repeat split; try done; simpl.
  - by apply lookup_outside_folder.
  - by intros ?%elem_outside_folder.
  - intros. by apply elem_outside_folder.
Qed.

Lemma generateThumbnail_storage context filename data width height :
  preserves (storage_outside (tempFolder platform context))
    (generateThumbnail platform context filename data width height).
Proof.
  unfold generateThumbnail.
  apply preserves_bind;
    [apply storage_outside_trans
    |apply preserves_checkParam, storage_outside_refl|].
  intros name.
  destruct (negb _ || _); [apply preserves_ret, storage_outside_refl|].
  fold (tempFolder platform context).
  apply preserves_bind;
    [apply storage_outside_trans|apply makeDirectory_storage|intros _].
  apply preserves_bind;
    [apply storage_outside_trans|apply write_storage, prefix_of_snoc
    |intros _].
  apply preserves_bind;
    [apply storage_outside_trans|apply exec_storage, prefix_of_snoc
    |intros _].
  apply preserves_bind;
    [apply storage_outside_trans|apply read_storage|intros scaled].
  apply preserves_bind;
    [apply storage_outside_trans|apply remove_storage|intros _].
  apply preserves_ret, storage_outside_refl.
Qed.

Lemma generateThumbnail_deployed context filename data width height w :
  deployed (snd (generateThumbnail platform context filename data width
                   height w)) = deployed w.
Proof.
  by destruct (generateThumbnail_storage context filename data width height w)
    as (_ & ? & _).
Qed.

(** X15. Thumbnail generation works on the server's local storage alone,
    and there only inside the temporary folder of the environment: however
    the call ends, the records, the deployed files and the log of deployer
    calls are as before, and so is every local file and directory that is
    not below [APP_ROOT/storage/<project>/<environment>/media]. *)
Theorem generateThumbnail_touches_only_temp_storage context filename data
    width height w :
  let w' :=
    snd (generateThumbnail platform context filename data width height w) in
  database w' = database w /\
  deployed w' = deployed w /\
  deployer_calls w' = deployer_calls w /\
  forall p, ~ tempFolder platform context `prefix_of` p ->
    files w' !! p = files w !! p /\
    (p ∈ directories w' <-> p ∈ directories w).
Proof. apply generateThumbnail_storage. Qed.

End Storage.

(** ** [save] *)

Lemma preserves_getDeployer_bind {B} (R : World -> World -> Prop) context
    (k : option Deployer -> M B) :
  preserves R (k (deployer_of context)) ->
  preserves R (bind (getDeployer context) k).
Proof. intros Hk w. unfold bind. rewrite getDeployer_reads. apply Hk. Qed.

Lemma preserves_ret_bind {A B} (R : World -> World -> Prop) (a : A)
    (k : A -> M B) :
  preserves R (k a) -> preserves R (bind (ret a) k).
Proof. intros Hk w. apply Hk. Qed.

Section Save.

Variable platform : Platform.
Variable saveRecord : Media -> Datatypes.list Media -> Datatypes.list Media.
Variable generate :
  option (Context -> option string -> Buffer -> M (option Buffer)).

(** X1. [save] needs a media deployer like [create] does: in an
    environment without one it is rejected with the error
    "No media deployer configured", and the state is as before, so that
    neither a file nor the record is written. *)
Theorem save_without_deployer_fails this options context w :
  Media.context this = Some context ->
  no_deployer_configured context ->
  save platform saveRecord generate this options w =
  (Throw (Error "No media deployer configured"), w).
Proof.
  intros Hcontext Hnone%no_deployer_configured_None.
  unfold save, bind, checkParam. rewrite Hcontext. simpl.
  rewrite getDeployer_reads. by rewrite Hnone.
Qed.

Lemma ResourceBase_save_preserves (R : World -> World -> Prop) this :
  (forall w w', deployed w' = deployed w -> R w w') ->
  preserves R (ResourceBase_save saveRecord this).
Proof. intros HR w. by apply HR. Qed.

(** The thumbnail step of [save] writes nothing but [thumbnail.jpg]. *)
Lemma save_thumbnail_step (R : World -> World -> Prop) deployer this context
    options :
  Reflexive R ->
  Transitive R ->
  (forall w w', deployed w' = deployed w -> R w w') ->
  (forall content,
      preserves R (setFile deployer (thumbnail_of deployer (id this))
                     content)) ->
  preserves R (removeFile deployer (thumbnail_of deployer (id this))) ->
  leaves_deployed generate ->
  preserves R
    (match save_thumbnail options with
     | ThumbnailFalse =>
         removeFile deployer
           (getPath deployer [Some (id this); Some "thumbnail.jpg"])
     | ThumbnailData (String c s) =>
         setFile deployer
           (getPath deployer [Some (id this); Some "thumbnail.jpg"])
           (String c s)
     | _ =>
         match truthy (save_full options), truthy (save_filename options) with
         | Some full, Some filename =>
             match generate with
             | None =>
                 throw (TypeError "this.generateThumbnail is not a function")
             | Some generate =>
                 thumbnail <-
                   generate context (Some filename)
                     (base64_decode platform full);;
                 match thumbnail with
                 | Some thumbnail =>
                     setFile deployer
                       (getPath deployer
                          [Some (id this); Some "thumbnail.jpg"])
                       (base64_encode platform thumbnail)
                 | None => ret tt
                 end
             end
         | _, _ => ret tt
         end
     end).
Proof.
  intros Hrefl Htrans Hsame Hset Hremove Hgenerate.
  assert (preserves R
    (match truthy (save_full options), truthy (save_filename options) with
     | Some full, Some filename =>
         match generate with
         | None =>
             throw (TypeError "this.generateThumbnail is not a function")
         | Some generate =>
             thumbnail <-
               generate context (Some filename)
                 (base64_decode platform full);;
             match thumbnail with
             | Some thumbnail =>
                 setFile deployer
                   (getPath deployer [Some (id this); Some "thumbnail.jpg"])
                   (base64_encode platform thumbnail)
             | None => ret tt
             end
         end
     | _, _ => ret tt
     end)) as Hauto.
  { destruct (truthy (save_full options)) as [full|];
      [|by apply preserves_ret].
    destruct (truthy (save_filename options)) as [filename|];
      [|by apply preserves_ret].
    destruct generate as [g|]; [|by apply preserves_throw].
    apply preserves_bind; [exact Htrans| |].
    - intros w. apply Hsame, Hgenerate.
    - intros [thumbnail|]; [apply Hset|by apply preserves_ret]. }
  destruct (save_thumbnail options) as [|[|c s]|];
    [exact Hremove|exact Hauto|apply Hset|exact Hauto].
Qed.

(** X2. Whatever the options, [save] changes deployed files only inside
    the folder of the resource it is called on; every other deployed file
    is as before, however the call ends.  (An instance method
    [generateThumbnail], should instances have one, is taken not to touch
    the deployer.) *)
Theorem save_stays_in_folder this options context deployer w p :
  Media.context this = Some context ->
  deployer_of context = Some deployer ->
  leaves_deployed generate ->
  ~ folder_of deployer (id this) `prefix_of` p ->
  deployed (snd (save platform saveRecord generate this options w)) !! p =
  deployed w !! p.
Proof.
  intros Hcontext Hdeployer Hgenerate. revert w p.
  change (preserves (deployed_outside (folder_of deployer (id this)))
            (save platform saveRecord generate this options)).
  unfold save, checkParam. rewrite Hcontext.
  apply preserves_ret_bind, preserves_getDeployer_bind. rewrite Hdeployer.
  apply preserves_bind; [apply deployed_outside_trans| |intros _].
  { destruct (truthy (filename this));
      [|apply preserves_ret, deployed_outside_refl].
    destruct (truthy (save_full options));
      [|apply preserves_ret, deployed_outside_refl].
    apply preserves_bind; [apply deployed_outside_trans| |intros _].
    - by apply removeFolder_outside.
    - apply setFile_outside, getPath_in_folder. }
  apply preserves_bind; [apply deployed_outside_trans| |intros _].
  - apply save_thumbnail_step;
      [apply deployed_outside_refl|apply deployed_outside_trans|..|done].
    + apply deployed_outside_same.
    + intros content. apply setFile_outside, getPath_in_folder.
    + apply removeFile_outside, getPath_in_folder.
  - apply ResourceBase_save_preserves, deployed_outside_same.
Qed.

(** X4. The new content is deployed only for a resource that already has
    a file name: when [this.filename] is empty or missing, or when no full
    payload is given, the one deployed file [save] can change is the
    [thumbnail.jpg] of the resource; a payload passed in [options.full] is
    then not stored anywhere. *)
Theorem save_without_filename_keeps_content this options context deployer w
    p :
  Media.context this = Some context ->
  deployer_of context = Some deployer ->
  leaves_deployed generate ->
  truthy (filename this) = None \/ truthy (save_full options) = None ->
  p <> thumbnail_of deployer (id this) ->
  deployed (snd (save platform saveRecord generate this options w)) !! p =
  deployed w !! p.
Proof.
  intros Hcontext Hdeployer Hgenerate Hguard. revert w p.
  change (preserves (deployed_except (thumbnail_of deployer (id this)))
            (save platform saveRecord generate this options)).
  unfold save, checkParam. rewrite Hcontext.
  apply preserves_ret_bind, preserves_getDeployer_bind. rewrite Hdeployer.
  apply preserves_bind; [apply deployed_except_trans| |intros _].
  { destruct Hguard as [-> | Hfull];
      [apply preserves_ret, deployed_except_refl|].
    rewrite Hfull.
    destruct (truthy (filename this));
      apply preserves_ret, deployed_except_refl. }
  apply preserves_bind; [apply deployed_except_trans| |intros _].
  - apply save_thumbnail_step;
      [apply deployed_except_refl|apply deployed_except_trans|..|done].
    + apply deployed_except_same.
    + intros content. apply setFile_except.
    + apply removeFile_except.
  - apply ResourceBase_save_preserves, deployed_except_same.
Qed.

(** X3. With a full payload and an explicit thumbnail, [save] on a
    resource that has a file name leaves in the resource's folder exactly
    two files: [thumbnail.jpg] holding the thumbnail as passed, and the
    file named in the options holding the payload (provided that name is
    not [thumbnail.jpg] itself); what the folder held before is gone.  The
    call returns and the record is saved. *)
Theorem save_redeploys_content_and_thumbnail this options context deployer w
    name full c s :
  Media.context this = Some context ->
  deployer_of context = Some deployer ->
  is_Some (truthy (filename this)) ->
  save_filename options = Some name ->
  truthy (save_full options) = Some full ->
  save_thumbnail options = ThumbnailData (String c s) ->
  let result := save platform saveRecord generate this options w in
  let folder := folder_of deployer (id this) in
  fst result = Return tt /\
  database (snd result) = saveRecord this (database w) /\
  deployed (snd result) !! (folder ++ ["thumbnail.jpg"]) = Some (String c s) /\
  (name <> "thumbnail.jpg" ->
   deployed (snd result) !! (folder ++ [name]) = Some full) /\
  (forall p, folder `prefix_of` p -> is_Some (deployed (snd result) !! p) ->
             p = folder ++ [name] \/ p = folder ++ ["thumbnail.jpg"]).
Proof.
  intros Hcontext Hdeployer [current Hcurrent] Hname Hfull Hthumbnail.
  unfold save, bind, checkParam. rewrite Hcontext. simpl.
  rewrite getDeployer_reads, Hdeployer, Hcurrent, Hfull, Hthumbnail, Hname.
  unfold folder_of. rewrite !getPath_file. simpl.
  split; [done|]. split; [done|]. split; [by rewrite lookup_insert_eq|].
  split.
  - intros Hother. rewrite lookup_insert_ne, lookup_insert_eq; [done|].
    intros [= ?]%app_inv_head. done.
  - intros p Hp Hsome.
    destruct (decide (p = getPath deployer [Some (id this)] ++ ["thumbnail.jpg"]))
      as [->|Hne1]; [by right|].
    destruct (decide (p = getPath deployer [Some (id this)] ++ [name]))
      as [->|Hne2]; [by left|].
    rewrite !lookup_insert_ne, removeFolder_lookup in Hsome by done.
    by destruct Hsome.
Qed.

(** X5. The source calls [this.generateThumbnail] on an instance, while
    the method it defines under that name is static.  When instances carry
    no such method, [save] with a full payload, a file name and no
    thumbnail option is rejected with a [TypeError] at that call: by then
    the folder has been replaced by the new content, and the record has
    not been saved. *)
Theorem save_regenerate_without_instance_method this options context deployer
    w name full :
  Media.context this = Some context ->
  deployer_of context = Some deployer ->
  is_Some (truthy (filename this)) ->
  truthy (save_filename options) = Some name ->
  truthy (save_full options) = Some full ->
  save_thumbnail options = ThumbnailUndefined ->
  let result := save platform saveRecord None this options w in
  let folder := folder_of deployer (id this) in
  fst result = Throw (TypeError "this.generateThumbnail is not a function") /\
  database (snd result) = database w /\
  deployed (snd result) =
    <[folder ++ [name] := full]>
      (filter (fun kv => ~ folder `prefix_of` fst kv) (deployed w)).
Proof.
  intros Hcontext Hdeployer [current Hcurrent] Hname Hfull Hthumbnail.
  assert (save_filename options = Some name) as Hname'.
  { destruct (save_filename options) as [[|]|]; simpl in Hname; congruence. }
  unfold save, bind, checkParam. rewrite Hcontext. simpl.
  rewrite getDeployer_reads, Hdeployer, Hcurrent, Hfull, Hthumbnail, Hname.
  rewrite Hname'. unfold folder_of. rewrite !getPath_file. done.
Qed.

End Save.

Lemma save_without_deployer_fails_witness :
  save example_platform example_saveRecord None bare_resource
    explicit_options cat_world =
  (Throw (Error "No media deployer configured"), cat_world).
Proof.
  apply (save_without_deployer_fails example_platform example_saveRecord None
           bare_resource explicit_options bare_context cat_world).
  - reflexivity.
  - reflexivity.
Defined.

Lemma save_stays_in_folder_witness :
  deployed (snd (save example_platform example_saveRecord None
                   (mkMedia "m1" (Some "dog.png") (Some deploying_context) ∅)
                   explicit_options cat_world))
    !! ["media"; "m0"; "cat.png"] = Some "cat".
Proof.
  rewrite (save_stays_in_folder example_platform example_saveRecord None
             (mkMedia "m1" (Some "dog.png") (Some deploying_context) ∅)
             explicit_options deploying_context
             (mkDeployer (mkSettings (Some "filesystem") ["media"])
                deploying_context)
             cat_world ["media"; "m0"; "cat.png"]).
  - vm_compute. reflexivity.
  - reflexivity.
  - reflexivity.
  - exact I.
  - intros [rest [=]].
Defined.

Lemma save_without_filename_keeps_content_witness :
  deployed (snd (save example_platform example_saveRecord None
                   nameless_resource explicit_options cat_world))
    !! ["media"; "m0"; "dog.png"] = None.
Proof.
  rewrite (save_without_filename_keeps_content example_platform
             example_saveRecord None nameless_resource explicit_options
             deploying_context
             (mkDeployer (mkSettings (Some "filesystem") ["media"])
                deploying_context)
             cat_world ["media"; "m0"; "dog.png"]).
  - vm_compute. reflexivity.
  - reflexivity.
  - reflexivity.
  - exact I.
  - left. reflexivity.
  - discriminate.
Defined.

Lemma save_redeploys_content_and_thumbnail_witness :
  deployed (snd (save example_platform example_saveRecord None cat_resource
                   explicit_options cat_world))
    !! ["media"; "m0"; "dog.png"] = Some "dog" /\
  deployed (snd (save example_platform example_saveRecord None cat_resource
                   explicit_options cat_world))
    !! ["media"; "m0"; "thumbnail.jpg"] = Some "small" /\
  ~ is_Some
      (deployed (snd (save example_platform example_saveRecord None
                        cat_resource explicit_options cat_world))
         !! ["media"; "m0"; "cat.png"]).
Proof.
  destruct (save_redeploys_content_and_thumbnail example_platform
              example_saveRecord None cat_resource explicit_options
              deploying_context
              (mkDeployer (mkSettings (Some "filesystem") ["media"])
                 deploying_context)
              cat_world "dog.png" "dog" "s" "mall")
    as (_ & _ & Hthumbnail & Hcontent & Honly).
  - reflexivity.
  - reflexivity.
  - by eexists.
  - reflexivity.
  - reflexivity.
  - reflexivity.
  - split; [by apply Hcontent|]. split; [exact Hthumbnail|].
    intros Hsome. apply Honly in Hsome.
    + by destruct Hsome as [[=]|[=]].
    + by exists ["cat.png"].
Defined.

Lemma save_regenerate_without_instance_method_witness :
  fst (save example_platform example_saveRecord None cat_resource
         regenerate_options cat_world) =
  Throw (TypeError "this.generateThumbnail is not a function").
Proof.
  apply (save_regenerate_without_instance_method example_platform
           example_saveRecord cat_resource regenerate_options
           deploying_context
           (mkDeployer (mkSettings (Some "filesystem") ["media"])
              deploying_context)
           cat_world "dog.png" "dog").
  - reflexivity.
  - reflexivity.
  - by eexists.
  - reflexivity.
  - reflexivity.
  - reflexivity.
Defined.

(** ** [getContentUrl] *)

Section ContentUrl.

Variable getPublicUrl : Deployer -> Path -> Path.

Lemma firstContent_find publicUrl files :
  firstContent publicUrl false files = content_file files.
Proof.
  induction files as [|file files IH]; [done|]. simpl.
  by destruct (String.eqb (basename file) "thumbnail.jpg").
Qed.

Lemma getContentUrl_reads this context w :
  Media.context this = Some context ->
  fst (getContentUrl getPublicUrl this false w) =
  Return (content_file (folder_listing context (id this) w)).
Proof.
  intros Hcontext. unfold getContentUrl, bind, checkParam, folder_listing.
  rewrite Hcontext. simpl. rewrite getDeployer_reads.
  destruct (deployer_of context) as [deployer|]; [|done].
  simpl. by rewrite firstContent_find.
Qed.

Lemma firstContent_answers publicUrl ensureWebUrl files :
  firstContent publicUrl ensureWebUrl files =
  (fun file => if ensureWebUrl then publicUrl file else file)
    <$> content_file files.
Proof.
  induction files as [|file files IH]; [done|]. simpl.
  by destruct (String.eqb (basename file) "thumbnail.jpg").
Qed.

Lemma getContentUrl_answers this context ensureWebUrl w :
  Media.context this = Some context ->
  fst (getContentUrl getPublicUrl this ensureWebUrl w) =
  Return
    (match deployer_of context with
     | Some deployer =>
         (fun file =>
            if ensureWebUrl then getPublicUrl deployer file else file)
           <$> content_file (folder_listing context (id this) w)
     | None => None
     end).
Proof.
  intros Hcontext. unfold getContentUrl, bind, checkParam, folder_listing.
  rewrite Hcontext. simpl. rewrite getDeployer_reads.
  destruct (deployer_of context) as [deployer|]; [|done].
  simpl. by rewrite firstContent_answers.
Qed.

(** X6. [getContentUrl] never answers with the thumbnail, with or without
    [ensureWebUrl]: its answer is a file deployed directly in the folder
    of the resource whose name is not [thumbnail.jpg], or with
    [ensureWebUrl] the public URL the deployer gives for that file; and
    it answers null exactly when no such file is deployed there (in
    particular when the environment has no deployer). *)
Theorem getContentUrl_never_thumbnail this context ensureWebUrl w :
  Media.context this = Some context ->
  exists url,
    fst (getContentUrl getPublicUrl this ensureWebUrl w) = Return url /\
    (forall answer, url = Some answer ->
       exists deployer file,
         deployer_of context = Some deployer /\
         file ∈ folder_listing context (id this) w /\
         basename file <> "thumbnail.jpg" /\
         answer =
           if ensureWebUrl then getPublicUrl deployer file else file) /\
    (url = None <-> ~ content_deployed context (id this) w).
Proof.
  intros Hcontext. eexists. split; [by apply getContentUrl_answers|].
  destruct (deployer_of context) as [deployer|] eqn:Hdeployer.
  - destruct (content_file _) as [file|] eqn:Hfile; simpl.
    + pose proof (content_file_Some _ _ Hfile) as [Helem Hname].
      split.
      * intros answer [= <-]. by exists deployer, file.
      * split; [done|]. intros Hnot. destruct Hnot.
        apply folder_listing_elem in Helem as (deployer' & ? & ? & ?).
        by exists deployer', file.
    + split; [done|]. split; [|done].
      intros _ (deployer' & file & Hdeployer' & Hsome & Hbelow & Hname).
      apply Hname, (content_file_None _ _ Hfile).
      apply folder_listing_elem. eauto.
  - split; [done|]. split; [|done].
    intros _ (deployer & file & Hdeployer' & _). congruence.
Qed.

(** X7. [get] and [getContentUrl] agree on the file of a resource: for an
    identifier without a record, [get] returns the resource made up from
    exactly the file [getContentUrl] answers with (its name is the last
    segment of that path), and null when [getContentUrl] answers null. *)
Theorem get_synthesizes_from_content_url this context w url :
  Media.context this = Some context ->
  List.find (fun r => String.eqb (id r) (id this)) (database w) = None ->
  fst (getContentUrl getPublicUrl this false w) = Return url ->
  fst (get context (id this) w) =
  Return (synthesized context (id this) <$> url).
Proof.
  intros Hcontext Hrecord.
  rewrite (getContentUrl_reads _ _ _ Hcontext). intros [= <-].
  by rewrite get_reads, Hrecord, associate_file.
Qed.

End ContentUrl.

Lemma getContentUrl_never_thumbnail_witness :
  exists url,
    fst (getContentUrl example_publicUrl cat_resource true cat_world)
      = Return url /\
    forall answer, url = Some answer ->
      exists deployer file,
        basename file <> "thumbnail.jpg" /\
        answer = example_publicUrl deployer file.
Proof.
  destruct (getContentUrl_never_thumbnail example_publicUrl cat_resource
              deploying_context true cat_world)
    as (url & Hurl & Hanswer & _).
  - reflexivity.
  - exists url. split; [exact Hurl|]. intros answer Heq.
    destruct (Hanswer answer Heq)
      as (deployer & file & _ & _ & Hname & Hpublic).
    exists deployer, file. split; [exact Hname|exact Hpublic].
Defined.

Lemma get_synthesizes_from_content_url_witness :
  fst (get deploying_context "m0"
         (with_deployed (deployed cat_world) empty_world)) =
  Return (Some (mkMedia "m0" (Some "cat.png") (Some deploying_context) ∅)).
Proof.
  apply (get_synthesizes_from_content_url example_publicUrl cat_resource
           deploying_context
           (with_deployed (deployed cat_world) empty_world)
           (Some ["media"; "m0"; "cat.png"])).
  - reflexivity.
  - reflexivity.
  - vm_compute. reflexivity.
Defined.

(** ** [get], [list] and [remove] *)

(** X9. A record wins over the deployer in [get]: when a record is
    persisted under the identifier, [get] returns that record as it is,
    with its own file name and context, whatever is deployed in the
    folder (a file of another name, only a thumbnail, or nothing). *)
Theorem get_returns_record_unchanged context id' w record :
  List.find (fun r => String.eqb (id r) id') (database w) = Some record ->
  fst (get context id' w) = Return (Some record).
Proof. intros Hrecord. by rewrite get_reads, Hrecord, associate_record. Qed.

Lemma get_returns_record_unchanged_witness :
  fst (get deploying_context "m0"
         (mkWorld [mkMedia "m0" (Some "old.png") None ∅]
            {[ ["media"; "m0"; "new.png"] := "new" ]} ∅ ∅ [])) =
  Return (Some (mkMedia "m0" (Some "old.png") None ∅)).
Proof.
  apply (get_returns_record_unchanged deploying_context "m0"
           (mkWorld [mkMedia "m0" (Some "old.png") None ∅]
              {[ ["media"; "m0"; "new.png"] := "new" ]} ∅ ∅ [])).
  reflexivity.
Defined.

(** X10. [list] lets the deployer win where [get] lets the record win: an
    entry of the result under whose identifier a file other than
    [thumbnail.jpg] is deployed carries the name of such a file and the
    context of the call, whatever file name and context its record had;
    of the record it keeps the metadata. *)
Theorem list_entry_takes_file_name platform context w entries entry :
  fst (Media.list platform context w) = Return entries ->
  entry ∈ entries ->
  (exists file, file ∈ root_listing context w /\ is_content file /\
                file_id file = id entry) ->
  (exists file, file ∈ root_listing context w /\ is_content file /\
                file_id file = id entry /\
                filename entry = Some (basename file)) /\
  Media.context entry = Some context /\
  ((exists r, r ∈ database w /\ id r = id entry /\
              metadata entry = metadata r) \/
   ((forall r, r ∈ database w -> id r <> id entry) /\ metadata entry = ∅)).
Proof.
  rewrite list_reads. intros [= <-] Hin (file & Hfile & Hcontent & Hid).
  unfold reconcile in Hin.
  set (m := foldl (associateFile context) (mapResources (database w))
              (root_listing context w)) in Hin.
  destruct (reconciled_files context (database w) (root_listing context w))
    as (Hnodup & Hvalues & _).
  fold m in Hnodup, Hvalues.
  rewrite sort_Permutation, Object_values_Permutation in Hin.
  apply list_elem_of_fmap in Hin as ([k v] & -> & Hkv). simpl in *.
  apply elem_lookup_key in Hkv; [|done].
  destruct (Hvalues _ _ Hkv) as [<- [[_ Hnone]|Hfrom]].
  - by destruct (Hnone file).
  - exact Hfrom.
Qed.

Lemma list_entry_takes_file_name_witness :
  exists entry,
    fst (Media.list example_platform deploying_context
           (mkWorld [mkMedia "m0" (Some "old.png") None {["author" := "ann"]}]
              {[ ["media"; "m0"; "new.png"] := "new" ]} ∅ ∅ []))
      = Return [entry] /\
    filename entry = Some "new.png" /\
    Media.context entry = Some deploying_context.
Proof.
  exists (mkMedia "m0" (Some "new.png") (Some deploying_context)
            {["author" := "ann"]}).
  split; [vm_compute; reflexivity|].
  destruct (list_entry_takes_file_name example_platform deploying_context
              (mkWorld
                 [mkMedia "m0" (Some "old.png") None {["author" := "ann"]}]
                 {[ ["media"; "m0"; "new.png"] := "new" ]} ∅ ∅ [])
              [mkMedia "m0" (Some "new.png") (Some deploying_context)
                 {["author" := "ann"]}]
              (mkMedia "m0" (Some "new.png") (Some deploying_context)
                 {["author" := "ann"]}))
    as (_ & Hcontext & _).
  - vm_compute. reflexivity.
  - apply list_elem_of_here.
  - exists ["media"; "m0"; "new.png"]. split; [|split].
    + vm_compute. apply list_elem_of_here.
    + discriminate.
    + reflexivity.
  - split; [reflexivity|exact Hcontext].
Defined.

Lemma find_other_record (id' other : string)
    (records : Datatypes.list Media) :
  other <> id' ->
  List.find (fun r => String.eqb (id r) other)
    (List.filter (fun r => negb (String.eqb (id r) id')) records) =
  List.find (fun r => String.eqb (id r) other) records.
Proof.
  intros Hother. induction records as [|r records IH]; [done|]. simpl.
  destruct (String.eqb_spec (id r) id') as [Heq|Hne]; simpl.
  - destruct (String.eqb_spec (id r) other) as [Heq'|]; [congruence|done].
  - by rewrite IH.
Qed.

Lemma prefix_of_same_length (l1 l2 k : Path) :
  l1 `prefix_of` k -> l2 `prefix_of` k -> length l1 = length l2 -> l1 = l2.
Proof.
  intros [k1 ->] [k2 Hk] Hlength. by apply app_inj_1 in Hk as [-> _].
Qed.

Lemma folders_disjoint deployer (id' other : string) (p : Path) :
  other <> id' ->
  getPath deployer [Some other] `prefix_of` p ->
  ~ getPath deployer [Some id'] `prefix_of` p.
Proof.
  intros Hother Hp Hp'. apply Hother.
  pose proof (prefix_of_same_length _ _ _ Hp Hp') as Heq.
  unfold getPath in Heq. simpl in Heq.
  apply app_inv_head in Heq; [congruence|].
  by rewrite !length_app.
Qed.

(** X11. [remove] leaves the other resources alone: after a resource was
    removed, [get] in its context for any other identifier gives what it
    gave before. *)
Theorem remove_leaves_other_resources this context other w :
  Media.context this = Some context ->
  other <> id this ->
  fst (get context other (snd (remove this w))) = fst (get context other w).
Proof.
  intros Hcontext Hother.
  rewrite !get_reads, remove_database, find_other_record by done.
  f_equal. f_equal. unfold folder_listing, remove, bind, checkParam.
  rewrite Hcontext. simpl. rewrite getDeployer_reads.
  destruct (deployer_of context) as [deployer|]; [|done].
  simpl. f_equal. f_equal.
  rewrite map_filter_filter. apply map_filter_ext.
  intros p content _. simpl. split; [tauto|].
  intros Hbelow. split; [done|].
  destruct Hbelow as [Hprefix _]. by apply (folders_disjoint _ _ other).
Qed.

Lemma remove_leaves_other_resources_witness :
  fst (get deploying_context "m1"
         (snd (remove cat_resource
                 (mkWorld [cat_resource]
                    {[ ["media"; "m0"; "cat.png"] := "cat";
                       ["media"; "m1"; "dog.png"] := "dog" ]} ∅ ∅ [])))) =
  Return (Some (mkMedia "m1" (Some "dog.png") (Some deploying_context) ∅)).
Proof.
  rewrite (remove_leaves_other_resources cat_resource deploying_context "m1").
  - vm_compute. reflexivity.
  - reflexivity.
  - discriminate.
Defined.

(** X12. [remove] deletes the record before it looks for the deployer.
    For a resource without context the call is therefore rejected (the
    context fails the parameter check of [getDeployer]) with the record
    already deleted and the deployed files all in place. *)
Theorem remove_without_context_deletes_record_only this w :
  Media.context this = None ->
  fst (remove this w) = Throw (ParamError "context") /\
  database (snd (remove this w)) =
    List.filter (fun r => negb (String.eqb (id r) (id this))) (database w) /\
  deployed (snd (remove this w)) = deployed w.
Proof.
  intros Hcontext. unfold remove, bind, checkParam. by rewrite Hcontext.
Qed.

Lemma remove_without_context_deletes_record_only_witness :
  fst (remove detached_resource
         (mkWorld [detached_resource]
            {[ ["media"; "m0"; "cat.png"] := "cat" ]} ∅ ∅ [])) =
    Throw (ParamError "context") /\
  database (snd (remove detached_resource
                   (mkWorld [detached_resource]
                      {[ ["media"; "m0"; "cat.png"] := "cat" ]} ∅ ∅ []))) =
    [] /\
  deployed (snd (remove detached_resource
                   (mkWorld [detached_resource]
                      {[ ["media"; "m0"; "cat.png"] := "cat" ]} ∅ ∅ [])))
    !! ["media"; "m0"; "cat.png"] = Some "cat".
Proof.
  destruct (remove_without_context_deletes_record_only detached_resource
              (mkWorld [detached_resource]
                 {[ ["media"; "m0"; "cat.png"] := "cat" ]} ∅ ∅ []))
    as (Hthrow & Hdatabase & Hdeployed).
  - reflexivity.
  - split; [exact Hthrow|]. split; [exact Hdatabase|].
    rewrite Hdeployed. vm_compute. reflexivity.
Defined.

(** ** [create] *)

Section CreateMore.

Variable platform : Platform.
Variable getPublicUrl : Deployer -> Path -> Path.





(** X13. [create] is not atomic.  When the upload is a raster image and
    the [convert] process fails, the call is rejected with the process
    error after the record has been persisted and the full file deployed:
    both are still there, without thumbnail, and nothing undoes them. *)
Theorem create_conversion_failure_is_partial context data options w deployer
    name :
  deployer_of context = Some deployer ->
  options_filename options = Some name ->
  raster platform name = true ->
  convert platform (convert_command platform context name 200 200)
    (base64_decode platform (options_full options)) = None ->
  let result := create platform context data options w in
  let folder := folder_of deployer (createId platform (database w)) in
  fst result =
    Throw (ProcessError (convert_command platform context name 200 200)) /\
  database (snd result) = database w ++ [created_record platform context data w] /\
  deployed (snd result) =
    <[folder ++ [name] := options_full options]>
      (filter (fun kv => ~ folder `prefix_of` fst kv) (deployed w)).
Proof.
  intros Hdeployer Hname Hraster Hconvert result folder.
  destruct result as [thrown w'] eqn:Hresult. subst result folder.
  revert Hresult.
  unfold create. unfold bind at 1. rewrite getDeployer_reads, Hdeployer.
  rewrite Hname. unfold bind, ResourceBase_create, removeFolder, setFile.
  unfold folder_of. rewrite !getPath_file. simpl.
  rewrite (generateThumbnail_convert_fails platform context name _ 200 200
             _ Hraster Hconvert).
  intros [= <- <-]. repeat split; reflexivity.
Qed.

(** X14. [create] writes into the folder of the new identifier only:
    every deployed file outside that folder is as before, whether the call
    returns or is rejected half way. *)
Theorem create_leaves_other_folders context data options w deployer p :
  deployer_of context = Some deployer ->
  ~ folder_of deployer (createId platform (database w)) `prefix_of` p ->
  deployed (snd (create platform context data options w)) !! p =
  deployed w !! p.
Proof.
  intros Hdeployer. revert p.
  change (deployed_outside
            (folder_of deployer (createId platform (database w))) w
            (snd (create platform context data options w))).
  unfold create. unfold bind at 1. rewrite getDeployer_reads, Hdeployer.
  unfold bind at 1. unfold ResourceBase_create at 1.
  set (resource := mkMedia _ _ _ _). set (w1 := mkWorld _ _ _ _ _).
  apply (deployed_outside_trans _ w w1); [by apply deployed_outside_same|].
  clearbody w1. apply preserves_at.
  apply preserves_bind; [apply deployed_outside_trans| |intros _].
  { by apply removeFolder_outside. }
  apply preserves_bind; [apply deployed_outside_trans| |intros _].
  { apply setFile_outside, (getPath_in_folder deployer (id resource)). }
  apply preserves_bind; [apply deployed_outside_trans| |intros thumbnail].
  { intros w2. apply deployed_outside_same, generateThumbnail_deployed. }
  apply preserves_bind;
    [apply deployed_outside_trans|
    |intros _; apply preserves_ret, deployed_outside_refl].
  destruct thumbnail; [|apply preserves_ret, deployed_outside_refl].
  apply setFile_outside, (getPath_in_folder deployer (id resource)).
Qed.

End CreateMore.


Lemma create_conversion_failure_is_partial_witness :
  (exists cmd,
      fst (create no_convert_platform deploying_context cat_data cat_options
             empty_world) = Throw (ProcessError cmd)) /\
  database (snd (create no_convert_platform deploying_context cat_data
                   cat_options empty_world)) = [cat_resource] /\
  deployed (snd (create no_convert_platform deploying_context cat_data
                   cat_options empty_world))
    !! ["media"; "m0"; "cat.png"] = Some "cat".
Proof.
  destruct (create_conversion_failure_is_partial no_convert_platform
              deploying_context cat_data cat_options empty_world
              (mkDeployer (mkSettings (Some "filesystem") ["media"])
                 deploying_context)
              "cat.png")
    as (Hthrow & Hdatabase & Hdeployed).
  - reflexivity.
  - reflexivity.
  - vm_compute. reflexivity.
  - reflexivity.
  - split; [by eexists|]. split; [exact Hdatabase|].
    rewrite Hdeployed. vm_compute. reflexivity.
Defined.

Lemma create_leaves_other_folders_witness :
  deployed (snd (create example_platform deploying_context cat_data
                   cat_options
                   (mkWorld [] {[ ["media"; "m7"; "dog.png"] := "dog" ]}
                      ∅ ∅ [])))
    !! ["media"; "m7"; "dog.png"] = Some "dog".
Proof.
  rewrite (create_leaves_other_folders example_platform deploying_context
             cat_data cat_options
             (mkWorld [] {[ ["media"; "m7"; "dog.png"] := "dog" ]} ∅ ∅ [])
             (mkDeployer (mkSettings (Some "filesystem") ["media"])
                deploying_context)
             ["media"; "m7"; "dog.png"]).
  - vm_compute. reflexivity.
  - reflexivity.
  - intros [rest [=]].
Defined.

End MediaMoreFacts.

(** * Part 7: properties of the remaining SchemaBase operations *)

Module SchemaBaseMoreFacts.

Import SchemaBase SchemaBaseSpec SchemaBaseMore SchemaBaseMoreSpec
  SchemaBaseFacts.

(** ** [get]: the options *)

Lemma bind_fst_ext {A B} (m m' : M A) (k : A -> M B) :
  fst m = fst m' -> fst (bind m k) = fst (bind m' k).
Proof.
  destruct m as [r t], m' as [r' t']. simpl. intros <-.
  destruct r as [a| |]; simpl; [|done..]. by destruct (k a).
Qed.

Lemma bind_fst_Throw {A B} (m : M A) (k : A -> M B) e :
  fst m = Throw e -> fst (bind m k) = Throw e.
Proof. destruct m as [[a| |] t]; simpl; congruence. Qed.

Lemma checkParam_options_accepted globals options accepts :
  global_Options globals = Some accepts ->
  accepts options = true ->
  checkParam_options globals options = ret tt.
Proof. intros Hbound Haccepts. unfold checkParam_options. by rewrite Hbound, Haccepts. Qed.


(** X17. The options of a call reach the lookup of the requested schema
    only: the parents are fetched with the default options.  Two calls
    whose options make the tiered lookup of the identifier itself give the
    same result give the same result altogether. *)
Theorem get_options_reach_first_lookup_only globals services fuel project
    environment id options options' accepts :
  global_Options globals = Some accepts ->
  accepts options = true ->
  accepts options' = true ->
  fst (resolve services project environment id options) =
    fst (resolve services project environment id options') ->
  fst (get globals services fuel project environment id options) =
  fst (get globals services fuel project environment id options').
Proof.
  intros Hbound Haccepts Haccepts' Hresolve.
  destruct fuel as [|fuel]; [done|].
  rewrite !get_unfold.
  rewrite !(checkParam_options_accepted _ _ accepts) by done.
  rewrite !bind_ret. by apply bind_fst_ext.
Qed.

(** X18. A parent that cannot be found makes the whole call fail: when
    the parent fields are asked for and the schema names a parent that is
    in no tier, [get] is rejected with the [TypeError] of reading [type]
    from null, raised by the nested call for the parent. *)
Theorem get_missing_parent_throws globals services fuel project environment
    id options accepts query data parentId :
  global_Options globals = Some accepts ->
  (forall options, accepts options = true) ->
  global_query globals = Some query ->
  withParentFields query = true ->
  fst (resolve services project environment id options)
    = Return (Some data) ->
  truthy (parentSchemaId data) = Some parentId ->
  absent services project environment parentId ->
  fst (get globals services (S (S fuel)) project environment id options) =
  Throw (TypeError "Cannot read property 'type' of null").
Proof.
  intros Hbound Haccepts Hquery Hflag Hresolve Hparent Habsent.
  rewrite get_unfold, (checkParam_options_accepted _ _ accepts) by done.
  rewrite bind_ret.
  rewrite (bind_fst_Return _ _ _ Hresolve). rewrite Hquery, Hflag, Hparent.
  apply bind_fst_Throw, bind_fst_Throw.
  cbn [walk]. rewrite Hparent. apply bind_fst_Throw.
  rewrite get_unfold, (checkParam_options_accepted _ _ accepts) by done.
  rewrite bind_ret.
  by rewrite (bind_fst_Return _ _ _
                (resolve_absent _ _ _ _ no_options Habsent)).
Qed.


Lemma get_options_reach_first_lookup_only_witness :
  fst (get query_set example_services 3 "project" "live" "article"
         local_only) =
  fst (get query_set example_services 3 "project" "live" "article"
         no_options).
Proof.
  apply (get_options_reach_first_lookup_only query_set example_services 3
           "project" "live" "article" local_only no_options accept_all).
  - reflexivity.
  - reflexivity.
  - reflexivity.
  - reflexivity.
Defined.

Lemma get_missing_parent_throws_witness :
  fst (get query_set orphan_services 2 "project" "live" "orphan" no_options) =
  Throw (TypeError "Cannot read property 'type' of null").
Proof.
  apply (get_missing_parent_throws query_set orphan_services 0 "project"
           "live" "orphan" no_options accept_all parent_fields orphan "gone").
  - reflexivity.
  - reflexivity.
  - reflexivity.
  - reflexivity.
  - reflexivity.
  - reflexivity.
  - repeat split.
Defined.

(** ** [create] *)

(** X19. [create] can never succeed.  The parent is fetched without
    [await], so what is tested is the promise: it is not null, and its
    constructor is not the class [create] was called on.  Every call with
    a user and a parent identifier is therefore rejected with
    "Parent schema ... does not match schema type", whatever the parent
    is and even when none exists, and the persistence layer is not
    reached. *)
Theorem create_always_rejects globals services ResourceBase_create this fuel
    user project environment data parentId :
  data_parentId data = Some parentId ->
  fst (create globals services ResourceBase_create this fuel (Some user)
         project environment data) =
  Throw (Error ("Parent schema " +:+ parentId +:+
                " does not match schema type")).
Proof.
  intros Hparent. unfold create, checkParam. rewrite Hparent.
  rewrite !bind_ret. unfold unawaited.
  by destruct (get _ _ _ _ _ _ _) as [settled calls].
Qed.

Lemma create_always_rejects_witness :
  fst (create query_set example_services example_create ContentSchemaClass 3
         (Some "admin") "project" "live"
         (mkCreateData "news" (Some "page"))) =
  Throw (Error "Parent schema page does not match schema type").
Proof.
  apply (create_always_rejects query_set example_services example_create
           ContentSchemaClass 3 "admin" "project" "live"
           (mkCreateData "news" (Some "page")) "page").
  reflexivity.
Defined.

(** ** [list] *)

Lemma same_type_eq (a b : option string) : same_type a b = true <-> a = b.
Proof.
  destruct a as [a|], b as [b|]; simpl; try (split; congruence).
  rewrite String.eqb_eq. split; congruence.
Qed.

Lemma select_Some this data entity :
  select this data = Some entity ->
  type data = type_of_class this /\ entity = construct this data.
Proof.
  unfold select. destruct (same_type _ _) eqn:Htype; [|done].
  intros [= <-]. by apply same_type_eq in Htype.
Qed.

Lemma data_of_construct this data : data_of (construct this data) = data.
Proof. by destruct this. Qed.

Section List.

Variable services : Services.
Variable listServices : ListServices.

Lemma readFiles_tagged paths gathered result :
  readFiles services paths gathered = Return result ->
  exists read,
    result = gathered ++ read /\
    length read = length paths /\
    Forall (fun data => is_Some (type data)) read.
Proof.
  revert gathered. induction paths as [|path paths IH]; intros gathered; simpl.
  - intros [= <-]. exists []. by rewrite app_nil_r.
  - destruct (FileService_read services path) as [data|]; [|done].
    intros (read & -> & Hlength & Htagged)%IH.
    eexists (_ :: read). rewrite <- app_assoc. split; [done|].
    split; [by rewrite <- Hlength|].
    constructor; [by eexists|done].
Qed.

Lemma list_local this project environment options entries :
  list_localOnly options = true ->
  list services listServices this project environment options
    = Return entries ->
  exists read custom,
    custom_records listServices environment options = Return custom /\
    length read = length (file_paths services options) /\
    Forall (fun data => is_Some (type data)) read /\
    entries = select this <$> (read ++ custom).
Proof.
  intros Hlocal. unfold list, custom_records, file_paths. rewrite Hlocal.
  destruct (list_customOnly options); simpl.
  - destruct (list_nativeOnly options); simpl.
    + intros [= <-]. by exists [], [].
    + destruct (DatabaseService_find _ _ _) as [custom| |]; simpl; [|done..].
      intros [= <-]. by exists [], custom.
  - destruct (readFiles _ _ _) as [gathered| |] eqn:Hread; simpl; [|done..].
    apply readFiles_tagged in Hread as (read & -> & Hlength & Htagged).
    destruct (list_nativeOnly options); simpl.
    + intros [= <-]. exists read, []. by rewrite app_nil_r.
    + destruct (DatabaseService_find _ _ _) as [custom| |]; simpl; [|done..].
      intros [= <-]. by exists read, custom.
Qed.

(** X20. What [list] returns is filtered by the type tag of the class it
    is called on: every entry that is not a hole is an instance of that
    class made from a record whose [type] is the tag of the class
    ([content], [field], or no tag at all for the base class).  For the
    two subclasses it is the entity [get] would make from the same
    record. *)
Theorem list_entries_have_the_class_type this project environment options
    entries entity :
  list services listServices this project environment options
    = Return entries ->
  Some entity ∈ entries ->
  type (data_of entity) = type_of_class this /\
  entity = construct this (data_of entity) /\
  (this <> SchemaBaseClass -> entity = instantiate (data_of entity)).
Proof.
  unfold list.
  destruct (if negb (list_customOnly options) then _ else _)
    as [gathered| |]; simpl; [|done..].
  destruct (if negb (list_nativeOnly options) then _ else _)
    as [gathered'| |]; simpl; [|done..].
  destruct (if negb (list_localOnly options) then _ else _)
    as [merged| |]; simpl; [|done..].
  intros [= <-] (data & Hselect & _)%list_elem_of_fmap.
  symmetry in Hselect. apply select_Some in Hselect as [Htype ->].
  rewrite data_of_construct. split; [done|]. split; [done|].
  intros Hclass. unfold instantiate. rewrite Htype.
  by destruct this.
Qed.

(** X21. With [localOnly] the [project] argument has no influence on the
    result of [list]: the schema files are global, and the custom records
    are asked for under [options.project], not under [project]. *)
Theorem list_localOnly_ignores_project this project project' environment
    options :
  list_localOnly options = true ->
  list services listServices this project environment options =
  list services listServices this project' environment options.
Proof. intros Hlocal. unfold list. by rewrite Hlocal. Qed.

(** X22. Filtering leaves holes: records of another type are deleted from
    the array, not removed, so that without a synchronization peer the
    array returned has one index for every schema file and every custom
    record read, whatever the class. *)
Theorem list_keeps_an_index_per_schema this project environment options
    entries :
  list_localOnly options = true ->
  list services listServices this project environment options
    = Return entries ->
  exists custom,
    custom_records listServices environment options = Return custom /\
    length entries = length (file_paths services options) + length custom.
Proof.
  intros Hlocal Hlist.
  destruct (list_local _ _ _ _ _ Hlocal Hlist)
    as (read & custom & Hcustom & Hlength & _ & ->).
  exists custom. split; [done|].
  by rewrite length_fmap, length_app, Hlength.
Qed.

(** X23. The base class lists no built-in schema: a schema read from a
    file always carries the type tag of its directory, and the base class
    keeps only records without tag.  Without a synchronization peer the
    result of [list] on the base class starts with one hole per schema
    file, followed by the selection of the custom records. *)
Theorem list_base_class_drops_file_schemas project environment options
    entries :
  list_localOnly options = true ->
  list services listServices SchemaBaseClass project environment options
    = Return entries ->
  exists custom,
    custom_records listServices environment options = Return custom /\
    entries =
      replicate (length (file_paths services options)) None ++
      (select SchemaBaseClass <$> custom).
Proof.
  intros Hlocal Hlist.
  destruct (list_local _ _ _ _ _ Hlocal Hlist)
    as (read & custom & Hcustom & Hlength & Htagged & ->).
  exists custom. split; [done|].
  rewrite fmap_app, <- Hlength. f_equal.
  clear Hlength Hlist. induction Htagged as [|data read [tag Htag] _ IH];
    [done|].
  simpl. rewrite <- IH. unfold select. by rewrite Htag.
Qed.

End List.

Lemma list_entries_have_the_class_type_witness :
  type page = Some "content" /\
  ContentSchema page = instantiate page.
Proof.
  destruct (list_entries_have_the_class_type list_files list_records
              ContentSchemaClass "project" "live" local_list
              [None; Some (ContentSchema page); None] (ContentSchema page))
    as (Htype & _ & Hget).
  - vm_compute. reflexivity.
  - apply list_elem_of_further, list_elem_of_here.
  - split; [exact Htype|]. apply Hget. discriminate.
Defined.

Lemma list_localOnly_ignores_project_witness :
  list list_files list_records FieldSchemaClass "project" "live" local_list =
  list list_files list_records FieldSchemaClass "other" "live" local_list.
Proof.
  apply (list_localOnly_ignores_project list_files list_records
           FieldSchemaClass "project" "other" "live" local_list).
  reflexivity.
Defined.

Lemma list_keeps_an_index_per_schema_witness :
  exists custom,
    custom_records list_records "live" local_list = Return custom /\
    length [None; Some (ContentSchema page); None] =
    length (file_paths list_files local_list) + length custom.
Proof.
  apply (list_keeps_an_index_per_schema list_files list_records
           ContentSchemaClass "project" "live" local_list
           [None; Some (ContentSchema page); None]).
  - reflexivity.
  - vm_compute. reflexivity.
Defined.

Lemma list_base_class_drops_file_schemas_witness :
  exists custom,
    custom_records list_records "live" local_list = Return custom /\
    [None; None; Some (SchemaBaseEntity untyped)] =
    replicate (length (file_paths list_files local_list)) None ++
    (select SchemaBaseClass <$> custom).
Proof.
  apply (list_base_class_drops_file_schemas list_files list_records
           "project" "live" local_list
           [None; None; Some (SchemaBaseEntity untyped)]).
  - reflexivity.
  - vm_compute. reflexivity.
Defined.

End SchemaBaseMoreFacts.

(** * Part 8: properties of the schema import *)

Module SchemaImportFacts.

Import SchemaImport SchemaImportSpec.

Lemma lower_ascii_idemp (c : ascii) : lower_ascii (lower_ascii c) = lower_ascii c.
Proof. by destruct c as [[] [] [] [] [] [] [] []]. Qed.

Lemma lower_ascii_is_ascii (c : ascii) :
  is_ascii c = true -> is_ascii (lower_ascii c) = true.
Proof. by destruct c as [[] [] [] [] [] [] [] []]. Qed.

Section Conversion.

Variable strings : StringOps.

(** X24. [getId] returns for nothing but a string that is not empty.  For
    a string that starts with an ASCII character the result is that string
    with its first character lowered ([A] to [Z] become [a] to [z]), and
    [getId] applied to the result returns it unchanged. *)
Theorem getId_lowers_first_character type id :
  ascii_faithful strings ->
  getId strings type = Return id ->
  exists s,
    type = JString s /\ s <> EmptyString /\
    forall c rest, s = String c rest -> is_ascii c = true ->
      id = String (lower_ascii c) rest /\
      getId strings (JString id) = Return id.
Proof.
  intros [Hempty Hascii] Hid.
  destruct type as [| | |s|items|entries]; simpl in Hid; try done.
  - exists s. split; [done|]. split.
    { intros ->. by rewrite Hempty in Hid. }
    intros c rest -> Hc.
    destruct (Hascii c rest Hc) as (Hfirst & Hrest & Hlower).
    rewrite Hfirst, Hrest, Hlower in Hid. injection Hid as <-.
    change (String (lower_ascii c) "" +:+ rest)
      with (String (lower_ascii c) rest).
    split; [done|]. cbn [getId].
    destruct (Hascii (lower_ascii c) rest (lower_ascii_is_ascii c Hc))
      as (-> & -> & ->).
    by rewrite lower_ascii_idemp.
  - by repeat case_match.
  - by repeat case_match.
Qed.

(** ** [getFields] *)

Lemma typeOf_find value typeEntries :
  (fix find (es : list (string * Json)) : Json :=
     match es with
     | [] => value
     | (k, v) :: es =>
         if String.eqb k "@type" then
           if truthy_value v then v else value
         else find es
     end) typeEntries =
  match lookup_entry "@type" typeEntries with
  | Some v => if truthy_value v then v else value
  | None => value
  end.
Proof.
  induction typeEntries as [|[k v] es IH]; [done|]. simpl.
  by destruct (String.eqb k "@type").
Qed.

Lemma typeOf_match value :
  match value with
  | JObject typeEntries =>
      (fix find (es : list (string * Json)) : Json :=
         match es with
         | [] => value
         | (k, v) :: es =>
             if String.eqb k "@type" then
               if truthy_value v then v else value
             else find es
         end) typeEntries
  | _ => value
  end = typeOf value.
Proof. destruct value; try done. apply typeOf_find. Qed.

Lemma getFields_unfold entries i18n :
  getFields strings (JObject entries) i18n = each strings entries i18n entries [].
Proof.
  cbn [getFields].
  match goal with |- ?f entries [] = _ => set (loop := f) end.
  generalize (@nil (string * Def)). generalize entries at 1 3.
  intros todo. induction todo as [|[key value] todo IH]; intros fields;
    [done|].
  unfold loop. cbn [each]. fold loop.
  destruct (is_annotation key); [apply IH|].
  rewrite typeOf_match.
  destruct i18n; try done; destruct (fieldDef strings _ _ _ _ _); try done; apply IH.
Qed.

Lemma null_or_not (json : Json) : json = JNull \/ json <> JNull.
Proof. destruct json; (by left) || (by right). Qed.

Lemma each_step entries i18n key value todo fields :
  i18n <> JNull ->
  each strings entries i18n ((key, value) :: todo) fields =
  if is_annotation key then each strings entries i18n todo fields
  else
    let info := or_else (property i18n key) (JObject []) in
    match fieldDef strings (lookup_entry "@type" entries) key info (typeOf value)
            (getFields strings (typeOf value) info) with
    | Return def => each strings entries i18n todo (set_property fields key def)
    | Throw e => Throw e
    | Hang => Hang
    end.
Proof. by destruct i18n. Qed.

Lemma each_null entries key value todo fields :
  each strings entries JNull ((key, value) :: todo) fields =
  if is_annotation key then each strings entries JNull todo fields
  else Throw (TypeError ("Cannot read property '" +:+ key +:+ "' of null")).
Proof. done. Qed.

Lemma typeOf_truthy value :
  truthy_value (typeOf value) = true -> truthy_value value = true.
Proof.
  by destruct value.
Qed.

Lemma fieldDef_truthy jsonType key info type struct def :
  fieldDef strings jsonType key info type struct = Return def ->
  truthy_value type = true.
Proof. unfold fieldDef. by destruct (truthy_value type). Qed.

Lemma each_values_truthy entries i18n todo fields result :
  each strings entries i18n todo fields = Return result ->
  forall key value, (key, value) ∈ todo -> is_annotation key = false ->
                    truthy_value value = true.
Proof.
  revert fields. induction todo as [|[k v] todo IH]; intros fields Heach
    key value Hin Hkey.
  { by apply elem_of_nil in Hin. }
  destruct (null_or_not i18n) as [->|Hi18n].
  - rewrite each_null in Heach.
    destruct (is_annotation k) eqn:Hk; [|done].
    apply elem_of_cons in Hin as [[= -> ->]|Hin]; [congruence|].
    by apply (IH _ Heach key).
  - rewrite each_step in Heach by done. cbv zeta in Heach.
    destruct (is_annotation k) eqn:Hk.
    + apply elem_of_cons in Hin as [[= -> ->]|Hin]; [congruence|].
      by apply (IH _ Heach key).
    + destruct (fieldDef strings _ _ _ _ _) as [def| |] eqn:Hdef; [|done..].
      apply elem_of_cons in Hin as [[= -> ->]|Hin].
      * by apply typeOf_truthy, (fieldDef_truthy _ _ _ _ _ _ Hdef).
      * by apply (IH _ Heach key).
Qed.

(** X25. [getFields] converts a document only if every key that is not
    an annotation has a type: when it returns, the value of every key that
    does not start with [@] is truthy (not null, false, zero or the empty
    string), at the top of the document; otherwise the call is
    rejected. *)
Theorem getFields_returns_only_if_typed entries i18n fields :
  getFields strings (JObject entries) i18n = Return fields ->
  forall key value, (key, value) ∈ entries -> is_annotation key = false ->
                    truthy_value value = true.
Proof. rewrite getFields_unfold. apply each_values_truthy. Qed.

Lemma assign_keys_fresh (fields : Fields) key def :
  key ∉ fields.*1 -> (assign fields key def).*1 = fields.*1 ++ [key].
Proof.
  induction fields as [|[k d] fields IH]; [done|]. simpl.
  intros [Hne Hnotin]%not_elem_of_cons.
  destruct (String.eqb_spec k key) as [->|_]; [done|].
  simpl. f_equal. by apply IH.
Qed.

Lemma each_keys entries i18n todo fields result :
  each strings entries i18n todo fields = Return result ->
  NoDup todo.*1 ->
  (forall key, key ∈ todo.*1 -> key ∉ fields.*1) ->
  result.*1 = fields.*1 ++ List.filter becomes_field todo.*1.
Proof.
  revert fields. induction todo as [|[k v] todo IH];
    intros fields Heach Hnodup Hfresh.
  { injection Heach as <-. simpl. by rewrite app_nil_r. }
  apply NoDup_cons in Hnodup as [Hk Hnodup].
  assert (forall key, key ∈ todo.*1 -> key ∉ fields.*1) as Hfresh'.
  { intros key Hkey. apply Hfresh. by right. }
  simpl. unfold becomes_field at 1.
  destruct (null_or_not i18n) as [->|Hi18n].
  - rewrite each_null in Heach.
    destruct (is_annotation k) eqn:Hannotation; [|done].
    by apply IH.
  - rewrite each_step in Heach by done. cbv zeta in Heach.
    destruct (is_annotation k) eqn:Hannotation; simpl; [by apply IH|].
    destruct (fieldDef strings _ _ _ _ _) as [def| |]; [|done..].
    unfold set_property in Heach.
    destruct (String.eqb k "__proto__"); simpl; [by apply IH|].
    apply IH in Heach; [|done|].
    + rewrite Heach, assign_keys_fresh, <- app_assoc; [done|].
      apply Hfresh. by left.
    + intros key Hkey. rewrite assign_keys_fresh by (apply Hfresh; by left).
      intros [?| ->%list_elem_of_singleton]%elem_of_app; [|done].
      by apply (Hfresh' key).
Qed.

(** X26. The fields [getFields] returns are the keys of the document that
    do not start with [@], one field per key and in the order of the
    document, the key [__proto__] apart (assigning to it sets the
    prototype of the result and adds no field). *)
Theorem getFields_keys entries i18n fields :
  NoDup entries.*1 ->
  getFields strings (JObject entries) i18n = Return fields ->
  fields.*1 = List.filter becomes_field entries.*1.
Proof.
  intros Hnodup Hfields. rewrite getFields_unfold in Hfields.
  apply each_keys in Hfields; [done..|].
  intros key _. apply not_elem_of_nil.
Qed.



(** ** The texts *)










End Conversion.

Lemma ascii_strings_faithful : ascii_faithful ascii_strings.
Proof. split; [done|]. by intros c rest _. Qed.

Lemma getId_lowers_first_character_witness :
  exists s,
    JString "BlogPost" = JString s /\ s <> EmptyString /\
    forall c rest, s = String c rest -> is_ascii c = true ->
      "blogPost" = String (lower_ascii c) rest /\
      getId ascii_strings (JString "blogPost") = Return "blogPost".
Proof.
  apply (getId_lowers_first_character ascii_strings (JString "BlogPost")
           "blogPost").
  - exact ascii_strings_faithful.
  - reflexivity.
Defined.

Lemma getFields_returns_only_if_typed_witness :
  truthy_value (JString "int") = true.
Proof.
  apply (getFields_returns_only_if_typed ascii_strings
           [("@type", JString "Person"); ("age", JString "int")]
           (JObject [])
           [("age", mkDef (JString "(no name)") (JString "(no description)")
                      (Some "number") (Step (JNumber 0)))])
    with (key := "age").
  - reflexivity.
  - apply list_elem_of_further, list_elem_of_here.
  - reflexivity.
Defined.

Lemma getFields_keys_witness :
  exists fields,
    getFields ascii_strings person person_en = Return fields /\
    fields.*1 = ["name"; "age"; "portrait"; "address"; "tags"].
Proof.
  destruct (getFields ascii_strings person person_en) as [fields| |]
    eqn:Hfields; [|by vm_compute in Hfields..].
  exists fields. split; [reflexivity|].
  rewrite (getFields_keys ascii_strings person_entries person_en fields).
  - reflexivity.
  - apply (bool_decide_unpack _). vm_compute. exact I.
  - exact Hfields.
Defined.


End SchemaImportFacts.
